(** * SQLMap GUI: the command compiler, the execution supervisor and the
      preset store of [src/sql.py]

    The development follows the class [SQLMapGUI]:
    - [Py]          the few Python primitives the code relies on
                    (truthiness of [str], [str.join], [str * int]);
    - [Options]     the tk variables of the form ([tk.StringVar],
                    [tk.BooleanVar]) and the attribute lookup that
                    [hasattr]/[getattr] perform on them;
    - [Gui]         the fields of [SQLMapGUI] and the dialog effects;
    - [Compiler]    [generate_command];
    - [Supervisor]  [execute_sqlmap], [_run_sqlmap], [_update_output],
                    [_execution_finished], [_execution_error],
                    [stop_execution], [clear_output], [quick_scan];
    - [Presets]     [load_presets], [load_preset], [save_preset],
                    [delete_preset];
    - [Dialogs]     the widgets the user edits, [browse_output_dir],
                    [browse_wordlist], [save_output];
    - [System]      the edits and the requests of the user interleaved
                    with the actions of the worker threads;
    - [Spec]        the vocabulary in which the properties are stated;
    - [Properties]  more vocabulary.
    The modules whose names end in [Facts] or [More] hold the proofs.

    A Python [str] is represented by the bytes of its UTF-8 encoding
    (Rocq's [string]).  A character has a code point above 127 exactly when
    its encoding consists of bytes above 127, and a character with a code
    point of at most 127 is encoded by that single byte, so
    [any(ord(char) > 127 for char in s)] is the test "some byte of [s] is
    above 127". *)

From Stdlib Require Import String Ascii List Bool Arith Lia.
From stdpp Require Import base strings gmap list.

(* ================================================================= *)
(** ** Python primitives *)

Module Py.

(** The double quote character (code 34), escaped inside the f-strings. *)
Definition dq : string := String "034"%char EmptyString.

(** [bool(s)] for a [str]: the empty string is falsy. *)
Definition truthy (s : string) : bool :=
  match s with
  | EmptyString => false
  | String _ _ => true
  end.

(** [a != b] on [str]. *)
Definition str_ne (a b : string) : bool := negb (String.eqb a b).

(** [sep.join(parts)]. *)
Definition join (sep : string) (parts : list string) : string :=
  String.concat sep parts.

(** [s * n]. *)
Fixpoint repeat_str (s : string) (n : nat) : string :=
  match n with
  | O => EmptyString
  | S k => s +:+ repeat_str s k
  end.

(** [s.startswith(prefix)]. *)
Fixpoint startswith (prefix s : string) : bool :=
  match prefix with
  | EmptyString => true
  | String a prefix' =>
      match s with
      | EmptyString => false
      | String b s' => Ascii.eqb a b && startswith prefix' s'
      end
  end.

(** [ord(char) > 127], on the bytes of the encoding. *)
Definition ord_gt_127 (c : ascii) : bool := 127 <? nat_of_ascii c.

(** [any(ord(char) > 127 for char in s)]. *)
Fixpoint any_ord_gt_127 (s : string) : bool :=
  match s with
  | EmptyString => false
  | String c rest => ord_gt_127 c || any_ord_gt_127 rest
  end.

(** A Python value as the presets hold them: a [str] or a [bool]. *)
Inductive value : Type :=
| VStr (s : string)
| VBool (b : bool).

(** [bool(v)]. *)
Definition value_truthy (v : value) : bool :=
  match v with
  | VStr s => truthy s
  | VBool b => b
  end.

End Py.

(* ================================================================= *)
(** ** The tk variables of the form *)

Module Options.
Import Py.

(** The attributes created with [tk.StringVar(...)]. *)
Inductive StringVar : Set :=
| url_var | data_var | cookie_var | user_agent_var | referer_var
| headers_var | proxy_var
| risk_var | level_var | threads_var | timeout_var | retries_var
| delay_var | output_dir_var
| database_var | table_var | wordlist_var
| status_var | progress_var.

(** The attributes created with [tk.BooleanVar()]. *)
Inductive BooleanVar : Set :=
| tor_var | random_agent_var | batch_var | verbose_var
| enum_dbs_var | enum_tables_var | enum_columns_var | enum_schema_var
| dump_all_var | dump_table_var | dump_columns_var | count_var
| common_tables_var | common_columns_var
| tech_boolean_var | tech_error_var | tech_union_var
| tech_stacked_var | tech_time_var | tech_inline_var
| os_detect_var | dbms_detect_var.

#[global] Instance StringVar_eq_dec : EqDecision StringVar.
Proof. solve_decision. Defined.

#[global] Instance BooleanVar_eq_dec : EqDecision BooleanVar.
Proof. solve_decision. Defined.

(** The current contents of every variable. *)
Record variables : Type := {
  str_get : StringVar -> string;
  bool_get : BooleanVar -> bool
}.

(** [var.set(v)] on a [StringVar] and on a [BooleanVar]. *)
Definition str_set (x : StringVar) (v : string) (vs : variables) : variables :=
  {| str_get := fun y => if decide (y = x) then v else str_get vs y;
     bool_get := bool_get vs |}.

Definition bool_set (x : BooleanVar) (b : bool) (vs : variables) : variables :=
  {| str_get := str_get vs;
     bool_get := fun y => if decide (y = x) then b else bool_get vs y |}.

(** The value each [StringVar] is created with. *)
Definition str_initial (x : StringVar) : string :=
  match x with
  | risk_var | level_var | threads_var => "1"
  | timeout_var => "30"
  | retries_var => "3"
  | delay_var => "0"
  | status_var => "🟢 Ready - Enter target URL to begin scanning"
  | _ => EmptyString
  end.

(** The variables as [create_interface] leaves them. *)
Definition initial_variables : variables :=
  {| str_get := str_initial; bool_get := fun _ => false |}.

(** Any variable of the form. *)
Inductive var : Set :=
| SV (x : StringVar)
| BV (x : BooleanVar).

#[global] Instance var_eq_dec : EqDecision var.
Proof. solve_decision. Defined.

(** The part of the attribute name before the [_var] suffix. *)
Definition str_key (x : StringVar) : string :=
  match x with
  | url_var => "url" | data_var => "data" | cookie_var => "cookie"
  | user_agent_var => "user_agent" | referer_var => "referer"
  | headers_var => "headers" | proxy_var => "proxy"
  | risk_var => "risk" | level_var => "level" | threads_var => "threads"
  | timeout_var => "timeout" | retries_var => "retries"
  | delay_var => "delay" | output_dir_var => "output_dir"
  | database_var => "database" | table_var => "table"
  | wordlist_var => "wordlist"
  | status_var => "status" | progress_var => "progress"
  end.

Definition bool_key (x : BooleanVar) : string :=
  match x with
  | tor_var => "tor" | random_agent_var => "random_agent"
  | batch_var => "batch" | verbose_var => "verbose"
  | enum_dbs_var => "enum_dbs" | enum_tables_var => "enum_tables"
  | enum_columns_var => "enum_columns" | enum_schema_var => "enum_schema"
  | dump_all_var => "dump_all" | dump_table_var => "dump_table"
  | dump_columns_var => "dump_columns" | count_var => "count"
  | common_tables_var => "common_tables"
  | common_columns_var => "common_columns"
  | tech_boolean_var => "tech_boolean" | tech_error_var => "tech_error"
  | tech_union_var => "tech_union" | tech_stacked_var => "tech_stacked"
  | tech_time_var => "tech_time" | tech_inline_var => "tech_inline"
  | os_detect_var => "os_detect" | dbms_detect_var => "dbms_detect"
  end.

Definition key (x : var) : string :=
  match x with
  | SV s => str_key s
  | BV b => bool_key b
  end.

Definition all_str_vars : list StringVar :=
  [url_var; data_var; cookie_var; user_agent_var; referer_var;
   headers_var; proxy_var; risk_var; level_var; threads_var; timeout_var;
   retries_var; delay_var; output_dir_var; database_var; table_var;
   wordlist_var; status_var; progress_var].

Definition all_bool_vars : list BooleanVar :=
  [tor_var; random_agent_var; batch_var; verbose_var; enum_dbs_var;
   enum_tables_var; enum_columns_var; enum_schema_var; dump_all_var;
   dump_table_var; dump_columns_var; count_var; common_tables_var;
   common_columns_var; tech_boolean_var; tech_error_var; tech_union_var;
   tech_stacked_var; tech_time_var; tech_inline_var; os_detect_var;
   dbms_detect_var].

Definition all_vars : list var := map SV all_str_vars ++ map BV all_bool_vars.

(** [getattr(self, f"{k}_var")] when [hasattr(self, f"{k}_var")], that
    is the variable whose attribute name is [k] followed by [_var]. *)
Definition find_var (k : string) : option var :=
  List.find (fun x => String.eqb (key x) k) all_vars.

(** [var.get()] as a Python value. *)
Definition get (vs : variables) (x : var) : value :=
  match x with
  | SV s => VStr (str_get vs s)
  | BV b => VBool (bool_get vs b)
  end.

(** The two status-bar variables are not scan options. *)
Definition is_option (x : var) : bool :=
  match x with
  | SV status_var | SV progress_var => false
  | _ => true
  end.

End Options.

(* ================================================================= *)
(** ** The fields of [SQLMapGUI] *)

Module Gui.
Import Py Options.

(** A preset is a Python [dict] from option keys to values; the preset
    store [self.presets] is a [dict] from names to presets. *)
Abbreviation preset := (gmap string value).

Record state : Type := {
  vars : variables;                  (* the [*_var] attributes *)
  current_command : string;          (* [self.current_command] *)
  is_running : bool;                 (* [self.is_running] *)
  output_buffer : string;            (* [self.output_buffer] *)
  command_text : string;             (* contents of [self.command_text] *)
  output_text : string;              (* contents of [self.output_text] *)
  presets : gmap string preset;      (* [self.presets] *)
  preset_listbox : list string       (* rows of [self.preset_listbox] *)
}.

Definition with_vars (f : variables -> variables) (s : state) : state :=
  {| vars := f (vars s); current_command := current_command s;
     is_running := is_running s; output_buffer := output_buffer s;
     command_text := command_text s; output_text := output_text s;
     presets := presets s; preset_listbox := preset_listbox s |}.

Definition with_current_command (c : string) (s : state) : state :=
  {| vars := vars s; current_command := c;
     is_running := is_running s; output_buffer := output_buffer s;
     command_text := command_text s; output_text := output_text s;
     presets := presets s; preset_listbox := preset_listbox s |}.

Definition with_is_running (b : bool) (s : state) : state :=
  {| vars := vars s; current_command := current_command s;
     is_running := b; output_buffer := output_buffer s;
     command_text := command_text s; output_text := output_text s;
     presets := presets s; preset_listbox := preset_listbox s |}.

Definition with_command_text (f : string -> string) (s : state) : state :=
  {| vars := vars s; current_command := current_command s;
     is_running := is_running s; output_buffer := output_buffer s;
     command_text := f (command_text s); output_text := output_text s;
     presets := presets s; preset_listbox := preset_listbox s |}.

Definition with_output_text (f : string -> string) (s : state) : state :=
  {| vars := vars s; current_command := current_command s;
     is_running := is_running s; output_buffer := output_buffer s;
     command_text := command_text s; output_text := f (output_text s);
     presets := presets s; preset_listbox := preset_listbox s |}.

Definition with_presets (f : gmap string preset -> gmap string preset)
    (s : state) : state :=
  {| vars := vars s; current_command := current_command s;
     is_running := is_running s; output_buffer := output_buffer s;
     command_text := command_text s; output_text := output_text s;
     presets := f (presets s); preset_listbox := preset_listbox s |}.

Definition with_preset_listbox (l : list string) (s : state) : state :=
  {| vars := vars s; current_command := current_command s;
     is_running := is_running s; output_buffer := output_buffer s;
     command_text := command_text s; output_text := output_text s;
     presets := presets s; preset_listbox := l |}.

(** [self.status_var.set(msg)] and [self.progress_var.set(msg)]. *)
Definition set_status (msg : string) : state -> state :=
  with_vars (str_set status_var msg).

Definition set_progress (msg : string) : state -> state :=
  with_vars (str_set progress_var msg).

(** [widget.delete(1.0, tk.END)] and [widget.insert(tk.END, text)] on the
    contents of a text widget ([insert(1.0, text)] right after a
    [delete(1.0, tk.END)] is the same insertion). *)
Definition text_delete_all (_ : string) : string := EmptyString.
Definition text_insert_end (text : string) (contents : string) : string :=
  contents +:+ text.

(** What a handler does besides changing the fields: the modal dialogs of
    [messagebox] and the start of the worker thread. *)
Inductive effect : Type :=
| showerror (title message : string)
| showwarning (title message : string)
| showinfo (title message : string)
| thread_start (target_command : string).

End Gui.

(* ================================================================= *)
(** ** [generate_command] *)

Module Compiler.
Import Py Options Gui.

(** [if cond: command_parts.append(token)]. *)
Definition append_if (cond : bool) (token : string) : list string :=
  if cond then [token] else [].

(** The flag followed by the value between double quotes, appended
    when the value is not empty. *)
Definition text_option (flag : string) (v : string) : list string :=
  append_if (truthy v) (flag +:+ dq +:+ v +:+ dq).

(** The flag followed by the value, appended when the value differs
    from the default. *)
Definition valued_option (flag : string) (default v : string) : list string :=
  append_if (str_ne v default) (flag +:+ v).

(** The list [techniques], built by six appends in source order. *)
Definition techniques (vs : variables) : list string :=
  append_if (bool_get vs tech_boolean_var) "B"
  ++ append_if (bool_get vs tech_error_var) "E"
  ++ append_if (bool_get vs tech_union_var) "U"
  ++ append_if (bool_get vs tech_stacked_var) "S"
  ++ append_if (bool_get vs tech_time_var) "T"
  ++ append_if (bool_get vs tech_inline_var) "Q".

(** [if techniques:] append the letters joined without separator after
    [--technique=]. *)
Definition technique_option (vs : variables) : list string :=
  match techniques vs with
  | [] => []
  | _ :: _ => ["--technique=" +:+ join EmptyString (techniques vs)]
  end.

(** The list [command_parts] at the end of [generate_command]. *)
Definition command_parts (vs : variables) : list string :=
  ["sqlmap"]
  (* Basic options *)
  ++ text_option "-u " (str_get vs url_var)
  ++ text_option "--data=" (str_get vs data_var)
  ++ text_option "--cookie=" (str_get vs cookie_var)
  ++ text_option "--user-agent=" (str_get vs user_agent_var)
  ++ text_option "--referer=" (str_get vs referer_var)
  ++ text_option "--headers=" (str_get vs headers_var)
  ++ text_option "--proxy=" (str_get vs proxy_var)
  (* Advanced options *)
  ++ valued_option "--risk=" "1" (str_get vs risk_var)
  ++ valued_option "--level=" "1" (str_get vs level_var)
  ++ valued_option "--threads=" "1" (str_get vs threads_var)
  ++ valued_option "--timeout=" "30" (str_get vs timeout_var)
  ++ valued_option "--retries=" "3" (str_get vs retries_var)
  ++ valued_option "--delay=" "0" (str_get vs delay_var)
  (* Boolean options *)
  ++ append_if (bool_get vs tor_var) "--tor"
  ++ append_if (bool_get vs random_agent_var) "--random-agent"
  ++ append_if (bool_get vs batch_var) "--batch"
  ++ append_if (bool_get vs verbose_var) "-v"
  (* Enumeration options *)
  ++ append_if (bool_get vs enum_dbs_var) "--dbs"
  ++ append_if (bool_get vs enum_tables_var) "--tables"
  ++ append_if (bool_get vs enum_columns_var) "--columns"
  ++ append_if (bool_get vs enum_schema_var) "--schema"
  ++ text_option "-D " (str_get vs database_var)
  ++ text_option "-T " (str_get vs table_var)
  ++ append_if (bool_get vs dump_all_var) "--dump-all"
  ++ append_if (bool_get vs dump_table_var) "--dump"
  ++ append_if (bool_get vs dump_columns_var) "--dump-columns"
  ++ append_if (bool_get vs count_var) "--count"
  (* Bruteforce options *)
  ++ append_if (bool_get vs common_tables_var) "--common-tables"
  ++ append_if (bool_get vs common_columns_var) "--common-columns"
  ++ text_option "--wordlist=" (str_get vs wordlist_var)
  (* Technique options *)
  ++ technique_option vs
  ++ append_if (bool_get vs os_detect_var) "--os-detect"
  ++ append_if (bool_get vs dbms_detect_var) "--dbms-detect"
  (* Output directory *)
  ++ text_option "--output-dir=" (str_get vs output_dir_var).

(** The string assigned to [self.current_command]. *)
Definition compile (vs : variables) : string :=
  join " " (command_parts vs).

(** [generate_command]: stores the command, shows it in the command
    widget and updates the status bar. *)
Definition generate_command (s : state) : state :=
  let s := with_current_command (compile (vars s)) s in
  let s := with_command_text text_delete_all s in
  let s := with_command_text (text_insert_end (current_command s)) s in
  let s := set_status "✅ Command generated successfully" s in
  set_progress "🔧 Ready to execute" s.

End Compiler.

(* ================================================================= *)
(** ** The execution supervisor *)

Module Supervisor.
Import Py Options Gui Compiler.

(** The newline character. *)
Definition nl : string := String "010"%char EmptyString.

(** ["="*80]. *)
Definition rule : string := repeat_str "=" 80.

(** [execute_sqlmap].  [now] is [datetime.now()] already formatted. *)
Definition execute_sqlmap (now : string) (s : state) : state * list effect :=
  if negb (truthy (current_command s)) then
    (s, [showerror "Error" "Please generate a command first"])
  else if is_running s then
    (s, [showwarning "Warning" "SQLMap is already running"])
  else
    let s := with_is_running true s in
    let s := set_status "🟡 Executing SQLMap..." s in
    let s := set_progress "⏳ Initializing..." s in
    let s := with_output_text text_delete_all s in
    let s := with_output_text (text_insert_end (rule +:+ nl)) s in
    let s := with_output_text (text_insert_end
               ("🔒 SQLMap Professional Scanner - Execution Started" +:+ nl)) s in
    let s := with_output_text (text_insert_end ("⏰ Time: " +:+ now +:+ nl)) s in
    let s := with_output_text (text_insert_end
               ("🎯 Command: " +:+ current_command s +:+ nl)) s in
    let s := with_output_text (text_insert_end (rule +:+ nl +:+ nl)) s in
    (s, [thread_start (current_command s)]).

(** What the external process does, as the worker thread observes it:
    whether [subprocess.Popen] raises, what the successive calls of
    [process.stdout.readline] give before the end of the stream, and the
    exit status that [process.wait()] returns. *)
Inductive readline_result : Type :=
| Line (text : string)
| Raises (error : string).

Record process : Type := {
  popen_error : option string;
  stdout : list readline_result;
  returncode : Z
}.

(** The calls [self.root.after(0, callback, ...)] of the worker. *)
Inductive callback : Type :=
| cb_update_output (line : string)
| cb_execution_finished
| cb_execution_error (error : string).

(** The loop [for line in iter(process.stdout.readline, ''):] followed by
    [process.wait()] and the scheduling of [_execution_finished]; an
    exception leaves through the [except] clause.  The end of the list
    is the end of the stream, where [readline] returns the empty
    string.  The value of [process.wait()] is dropped by the source. *)
Fixpoint read_loop (reads : list readline_result) (returncode : Z)
    : list callback :=
  match reads with
  | [] => [cb_execution_finished]
  | Line text :: rest =>
      if truthy text
      then cb_update_output text :: read_loop rest returncode
      else [cb_execution_finished]
  | Raises error :: _ => [cb_execution_error error]
  end.

(** [_run_sqlmap]: the callbacks the worker schedules, in order. *)
Definition _run_sqlmap (p : process) : list callback :=
  match popen_error p with
  | Some error => [cb_execution_error error]
  | None => read_loop (stdout p) (returncode p)
  end.

(** [_update_output]. *)
Definition _update_output (line : string) (s : state) : state :=
  with_output_text (text_insert_end line) s.

(** [_execution_finished]. *)
Definition _execution_finished (now : string) (s : state) : state * list effect :=
  let s := with_is_running false s in
  let s := set_status "🟢 SQLMap execution completed successfully" s in
  let s := set_progress "✅ Done" s in
  let s := with_output_text (text_insert_end (nl +:+ rule +:+ nl)) s in
  let s := with_output_text (text_insert_end
             ("✅ SQLMap execution completed successfully" +:+ nl)) s in
  let s := with_output_text (text_insert_end
             ("⏰ Completed at: " +:+ now +:+ nl)) s in
  let s := with_output_text (text_insert_end (rule +:+ nl)) s in
  (s, [showinfo "Success" "🎉 SQLMap execution completed successfully!"]).

(** [_execution_error]. *)
Definition _execution_error (now : string) (error : string) (s : state)
    : state * list effect :=
  let s := with_is_running false s in
  let s := set_status "🔴 SQLMap execution failed" s in
  let s := set_progress "❌ Error" s in
  let s := with_output_text (text_insert_end (nl +:+ rule +:+ nl)) s in
  let s := with_output_text (text_insert_end
             ("❌ SQLMap execution failed" +:+ nl)) s in
  let s := with_output_text (text_insert_end
             ("🚨 Error: " +:+ error +:+ nl)) s in
  let s := with_output_text (text_insert_end
             ("⏰ Failed at: " +:+ now +:+ nl)) s in
  let s := with_output_text (text_insert_end (rule +:+ nl)) s in
  (s, [showerror "Error" ("❌ SQLMap execution failed:" +:+ nl +:+ error)]).

(** [stop_execution]. *)
Definition stop_execution (s : state) : state * list effect :=
  if is_running s then
    let s := with_is_running false s in
    let s := set_status "Stopping SQLMap..." s in
    (s, [showinfo "Info" "Stop functionality would terminate the SQLMap process"])
  else (s, []).

(** [clear_output]. *)
Definition clear_output (s : state) : state :=
  let s := with_output_text text_delete_all s in
  let s := with_command_text text_delete_all s in
  let s := set_status "🗑️ Output cleared" s in
  set_progress EmptyString s.

(** [quick_scan]. *)
Definition quick_scan (now : string) (s : state) : state * list effect :=
  if negb (truthy (str_get (vars s) url_var)) then
    (s, [showerror "Error" "Please enter a target URL first"])
  else
    let s := with_vars (str_set risk_var "2") s in
    let s := with_vars (str_set level_var "3") s in
    let s := with_vars (bool_set batch_var true) s in
    let s := with_vars (bool_set verbose_var true) s in
    let s := with_vars (bool_set random_agent_var true) s in
    let s := generate_command s in
    let '(s, effects) := execute_sqlmap now s in
    let s := set_status "🟡 Quick scan initiated..." s in
    let s := set_progress "⏳ Scanning..." s in
    (s, effects).

(** The main loop runs one scheduled callback. *)
Definition run_callback (now : string) (cb : callback) (s : state)
    : state * list effect :=
  match cb with
  | cb_update_output line => (_update_output line s, [])
  | cb_execution_finished => _execution_finished now s
  | cb_execution_error error => _execution_error now error s
  end.

(** The main loop runs the scheduled callbacks in the order of their
    scheduling. *)
Fixpoint run_callbacks (now : string) (cbs : list callback) (s : state)
    : state * list effect :=
  match cbs with
  | [] => (s, [])
  | cb :: rest =>
      let '(s1, e1) := run_callback now cb s in
      let '(s2, e2) := run_callbacks now rest s1 in
      (s2, e1 ++ e2)
  end.

End Supervisor.

(* ================================================================= *)
(** ** The preset store *)

Module Presets.
Import Py Options Gui.

(** The dictionary literal of [load_presets], in source order. *)
Definition builtin_presets : list (string * preset) :=
  [ ("🚀 Quick Scan",
     list_to_map [("risk", VStr "2"); ("level", VStr "3");
                  ("batch", VBool true); ("verbose", VBool true);
                  ("random_agent", VBool true)]);
    ("🔍 Comprehensive Scan",
     list_to_map [("risk", VStr "3"); ("level", VStr "5");
                  ("threads", VStr "10"); ("batch", VBool true);
                  ("verbose", VBool true); ("enum_dbs", VBool true);
                  ("enum_tables", VBool true); ("enum_columns", VBool true);
                  ("random_agent", VBool true)]);
    ("📊 Database Enumeration",
     list_to_map [("risk", VStr "2"); ("level", VStr "3");
                  ("batch", VBool true); ("enum_dbs", VBool true);
                  ("enum_tables", VBool true); ("enum_columns", VBool true);
                  ("verbose", VBool true)]);
    ("💾 Data Extraction",
     list_to_map [("risk", VStr "3"); ("level", VStr "4");
                  ("batch", VBool true); ("dump_all", VBool true);
                  ("verbose", VBool true); ("random_agent", VBool true)]);
    ("🎯 Stealth Mode",
     list_to_map [("risk", VStr "1"); ("level", VStr "2");
                  ("delay", VStr "2"); ("batch", VBool true);
                  ("tor", VBool true); ("random_agent", VBool true)]);
    ("⚡ Aggressive Scan",
     list_to_map [("risk", VStr "3"); ("level", VStr "5");
                  ("threads", VStr "15"); ("batch", VBool true);
                  ("verbose", VBool true); ("enum_dbs", VBool true);
                  ("enum_tables", VBool true); ("enum_columns", VBool true);
                  ("dump_all", VBool true)]) ].

(** [load_presets]: assigns the literal to [self.presets] and fills the
    listbox with its keys. *)
Definition load_presets (s : state) : state :=
  let s := with_presets (fun _ => list_to_map builtin_presets) s in
  with_preset_listbox (map fst builtin_presets) s.

(** [__init__], as far as the fields of the model go. *)
Definition initial_state : state :=
  load_presets
    {| vars := initial_variables; current_command := EmptyString;
       is_running := false; output_buffer := EmptyString;
       command_text := EmptyString; output_text := EmptyString;
       presets := ∅; preset_listbox := [] |}.

(** How a handler ends: normally, by a [KeyError] of a dictionary access,
    or in tk's conversion of a value whose kind is not the variable's
    ([TclCoercion]; the source never passes such a value and what tk does
    with one is not part of the source). *)
Inductive outcome : Type :=
| Ok (s : state) (effects : list effect)
| KeyError (k : string)
| TclCoercion (k : string).

(** [if hasattr(self, f"{key}_var"): getattr(self, f"{key}_var").set(value)]. *)
Definition apply_entry (k : string) (v : value) (vs : variables)
    : option variables :=
  match find_var k, v with
  | None, _ => Some vs
  | Some (SV x), VStr text => Some (str_set x text vs)
  | Some (BV x), VBool b => Some (bool_set x b vs)
  | Some _, _ => None
  end.

(** [for key, value in preset.items(): ...].  The keys of a dictionary
    are distinct and each entry touches the one variable named by its key,
    so the order of the loop does not show in the result. *)
Definition apply_preset (p : preset) (vs : variables) : option variables :=
  map_fold (fun k v acc => acc ≫= apply_entry k v) (Some vs) p.

(** [self.preset_listbox.get(index)]; tk gives the empty string outside
    the rows. *)
Definition listbox_get (s : state) (index : nat) : string :=
  default EmptyString (preset_listbox s !! index).

(** [load_preset].  [selection] is [curselection()]: no row or the index
    of the selected row. *)
Definition load_preset (selection : option nat) (s : state) : outcome :=
  match selection with
  | None => Ok s [showwarning "Warning" "Please select a preset to load"]
  | Some index =>
      let preset_name := listbox_get s index in
      match presets s !! preset_name with
      | None => KeyError preset_name
      | Some p =>
          match apply_preset p (vars s) with
          | None => TclCoercion preset_name
          | Some vs =>
              let s := with_vars (fun _ => vs) s in
              let s := set_status ("✅ Loaded preset: " +:+ preset_name) s in
              let s := set_progress "⚙️ Preset applied" s in
              Ok s [showinfo "Success"
                      ("✅ Preset '" +:+ preset_name +:+ "' loaded successfully!")]
          end
      end
  end.

(** The name under which [save_preset] files the preset:
    [if not any(ord(char) > 127 for char in preset_name)] the gear prefix
    is put in front. *)
Definition save_preset_name (preset_name : string) : string :=
  if negb (any_ord_gt_127 preset_name)
  then "⚙️ " +:+ preset_name
  else preset_name.

(** The loop over [dir(self)]: every attribute ending in [_var] whose
    value is truthy is recorded under its name without the suffix.  The
    keys are distinct, so the order of [dir] does not show in the
    dictionary. *)
Definition collect (vs : variables) : preset :=
  foldl (fun acc x =>
           if value_truthy (get vs x) then <[key x := get vs x]> acc else acc)
        ∅ all_vars.

(** [save_preset] up to and including the assignment
    [self.presets[preset_name] = preset].  [answer] is what
    [simpledialog.askstring] returned ([None] when the dialog was
    cancelled); the result is [None] when the handler returned before the
    assignment. *)
Definition save_preset_assign (answer : option string) (s : state)
    : option (string * state) :=
  match answer with
  | None => None
  | Some preset_name =>
      if negb (truthy preset_name) then None
      else
        let preset_name := save_preset_name preset_name in
        let p := collect (vars s) in
        Some (preset_name, with_presets (insert preset_name p) s)
  end.

(** [save_preset]. *)
Definition save_preset (answer : option string) (s : state)
    : state * list effect :=
  match save_preset_assign answer s with
  | None => (s, [])
  | Some (preset_name, s) =>
      let s := load_presets s in   (* Refresh the list *)
      let s := set_status ("✅ Preset '" +:+ preset_name +:+ "' saved") s in
      let s := set_progress "💾 Saved" s in
      (s, [showinfo "Success"
             ("✅ Preset '" +:+ preset_name +:+ "' saved successfully!")])
  end.

(** [delete_preset] up to and including [del self.presets[preset_name]];
    [confirm] is the answer to [messagebox.askyesno]. *)
Definition delete_preset_del (preset_name : string) (s : state)
    : option state :=
  match presets s !! preset_name with
  | None => None
  | Some _ => Some (with_presets (delete preset_name) s)
  end.

(** [delete_preset]. *)
Definition delete_preset (selection : option nat) (confirm : bool)
    (s : state) : outcome :=
  match selection with
  | None => Ok s [showwarning "Warning" "Please select a preset to delete"]
  | Some index =>
      let preset_name := listbox_get s index in
      if confirm then
        match delete_preset_del preset_name s with
        | None => KeyError preset_name
        | Some s =>
            let s := load_presets s in   (* Refresh the list *)
            let s := set_status ("🗑️ Preset '" +:+ preset_name +:+ "' deleted") s in
            let s := set_progress EmptyString s in
            Ok s [showinfo "Success"
                    ("✅ Preset '" +:+ preset_name +:+ "' deleted successfully!")]
        end
      else Ok s []
  end.

(** The lookup [self.presets[name]] that the handlers perform. *)
Definition get_preset (name : string) (s : state) : option preset :=
  presets s !! name.

End Presets.

(* ================================================================= *)
(** ** The widgets and the file dialogs of the form *)

Module Dialogs.
Import Py Options Gui Supervisor.

(** The user types in the [ttk.Entry], or types or picks in the
    [ttk.Combobox], whose [textvariable] is [x]: tk writes the text of the
    widget to the variable.  The two variables of the status bar are the
    [textvariable] of a [tk.Label], which takes no input. *)
Definition type_text (x : StringVar) (text : string) (s : state) : state :=
  if is_option (SV x) then with_vars (str_set x text) s else s.

(** The user clicks the [ttk.Checkbutton] whose [variable] is [x]: tk
    toggles the variable. *)
Definition click_check (x : BooleanVar) (s : state) : state :=
  with_vars (fun vs => bool_set x (negb (bool_get vs x)) vs) s.

(** The user edits one of the two [ScrolledText] widgets, neither of
    which is disabled: [text] is what the widget holds afterwards.  No
    field of the class is assigned. *)
Definition edit_command_text (text : string) (s : state) : state :=
  with_command_text (fun _ => text) s.

Definition edit_output_text (text : string) (s : state) : state :=
  with_output_text (fun _ => text) s.

(** [browse_output_dir].  [directory] is what [filedialog.askdirectory()]
    returned: the empty string when the dialog was cancelled. *)
Definition browse_output_dir (directory : string) (s : state) : state :=
  if truthy directory
  then with_vars (str_set output_dir_var directory) s
  else s.

(** [browse_wordlist].  [filename] is what [filedialog.askopenfilename]
    returned: the empty string when the dialog was cancelled. *)
Definition browse_wordlist (filename : string) (s : state) : state :=
  if truthy filename
  then with_vars (str_set wordlist_var filename) s
  else s.

(** What [save_output] does; it assigns to no field. *)
Inductive file_effect : Type :=
| file_written (filename contents : string)
| file_dialog (e : effect).

(** [self.output_text.get(1.0, tk.END)]: tk keeps a newline at the end of
    a text widget, and the range up to [tk.END] includes it. *)
Definition text_get_all (contents : string) : string := contents +:+ nl.

(** [save_output].  [filename] is what [filedialog.asksaveasfilename]
    returned (empty when cancelled); [failure] is the exception that
    [open] or [write] raised, if any (what had reached the file by then is
    not kept). *)
Definition save_output (filename : string) (failure : option string)
    (s : state) : list file_effect :=
  if truthy filename then
    match failure with
    | None =>
        [ file_written filename
            (("SQLMap Command:" +:+ nl)
             +:+ (current_command s +:+ nl +:+ nl)
             +:+ ("SQLMap Output:" +:+ nl)
             +:+ text_get_all (output_text s));
          file_dialog (showinfo "Success" ("Output saved to " +:+ filename)) ]
    | Some e =>
        [ file_dialog (showerror "Error" ("Failed to save output: " +:+ e)) ]
    end
  else [].

End Dialogs.

(* ================================================================= *)
(** ** The user, the main loop and the worker threads together *)

Module System.
Import Py Options Gui Compiler Supervisor Presets Dialogs.

(** A worker thread running [_run_sqlmap], one action at a time.
    [Spawned]: the thread was started and has not called [Popen] yet.
    [Reading]: [Popen] returned, the external process is live and the
    thread reads its output; what is left to read and the exit status
    are kept.  [Ended]: the thread left [_run_sqlmap]. *)
Inductive worker : Type :=
| Spawned (p : process)
| Reading (reads : list readline_result) (returncode : Z)
| Ended.

(** The next action of a worker and the callback it schedules. *)
Definition worker_step (w : worker) : worker * option callback :=
  match w with
  | Spawned p =>
      match popen_error p with
      | Some error => (Ended, Some (cb_execution_error error))
      | None => (Reading (stdout p) (returncode p), None)
      end
  | Reading [] _ => (Ended, Some cb_execution_finished)
  | Reading (Line text :: rest) rc =>
      if truthy text
      then (Reading rest rc, Some (cb_update_output text))
      else (Ended, Some cb_execution_finished)
  | Reading (Raises error :: _) _ => (Ended, Some (cb_execution_error error))
  | Ended => (Ended, None)
  end.

(** All the callbacks of a worker, by repeating [worker_step]. *)
Fixpoint worker_run (fuel : nat) (w : worker) : list callback :=
  match fuel with
  | O => []
  | S fuel =>
      let '(w, cb) := worker_step w in
      match cb with
      | Some cb => cb :: worker_run fuel w
      | None => worker_run fuel w
      end
  end.

Record system : Type := {
  gui : state;
  workers : list worker
}.

Definition initial_system : system :=
  {| gui := initial_state; workers := [] |}.

(** What can happen next: the user edits a widget of the form, the user
    makes a request (a button of the form), or the worker thread number
    [i] takes its next action.  A callback scheduled with
    [root.after(0, ...)] is run by the main loop at once. *)
Inductive event : Type :=
| Type_text (x : StringVar) (text : string)
| Click_check (x : BooleanVar)
| Browse_output_dir (directory : string)
| Browse_wordlist (filename : string)
| Edit_command_text (text : string)
| Edit_output_text (text : string)
| Generate
| Execute (now : string) (p : process)
| Quick_scan (now : string) (p : process)
| Stop
| Clear_output
| Save_output (filename : string) (failure : option string)
| Load_preset (selection : option nat)
| Save_preset (answer : option string)
| Delete_preset (selection : option nat) (confirm : bool)
| Worker (i : nat) (now : string).

(** One thread per [thread.start()]; [p] is what its process will do. *)
Definition spawn (p : process) (effects : list effect) : list worker :=
  flat_map (fun e => match e with
                     | thread_start _ => [Spawned p]
                     | _ => []
                     end) effects.

(** A handler that raises leaves the fields as they were: the two
    [KeyError]s are raised before any assignment. *)
Definition after_outcome (o : outcome) (s : state) : state :=
  match o with
  | Ok s' _ => s'
  | KeyError _ | TclCoercion _ => s
  end.

(** What an event does to the fields and the threads.  The dialogs a
    handler shows are dropped here; [save_output] writes its file and
    shows its dialog, and assigns to no field. *)
Definition step (e : event) (sys : system) : system :=
  match e with
  | Type_text x text =>
      {| gui := type_text x text (gui sys); workers := workers sys |}
  | Click_check x =>
      {| gui := click_check x (gui sys); workers := workers sys |}
  | Browse_output_dir directory =>
      {| gui := browse_output_dir directory (gui sys); workers := workers sys |}
  | Browse_wordlist filename =>
      {| gui := browse_wordlist filename (gui sys); workers := workers sys |}
  | Edit_command_text text =>
      {| gui := edit_command_text text (gui sys); workers := workers sys |}
  | Edit_output_text text =>
      {| gui := edit_output_text text (gui sys); workers := workers sys |}
  | Save_output _ _ => sys
  | Generate =>
      {| gui := generate_command (gui sys); workers := workers sys |}
  | Execute now p =>
      let '(s, effects) := execute_sqlmap now (gui sys) in
      {| gui := s; workers := workers sys ++ spawn p effects |}
  | Quick_scan now p =>
      let '(s, effects) := quick_scan now (gui sys) in
      {| gui := s; workers := workers sys ++ spawn p effects |}
  | Stop =>
      {| gui := fst (stop_execution (gui sys)); workers := workers sys |}
  | Clear_output =>
      {| gui := clear_output (gui sys); workers := workers sys |}
  | Load_preset selection =>
      {| gui := after_outcome (load_preset selection (gui sys)) (gui sys);
         workers := workers sys |}
  | Save_preset answer =>
      {| gui := fst (save_preset answer (gui sys)); workers := workers sys |}
  | Delete_preset selection confirm =>
      {| gui := after_outcome (delete_preset selection confirm (gui sys)) (gui sys);
         workers := workers sys |}
  | Worker i now =>
      match workers sys !! i with
      | None => sys
      | Some w =>
          let '(w', cb) := worker_step w in
          {| gui := match cb with
                    | Some cb => fst (run_callback now cb (gui sys))
                    | None => gui sys
                    end;
             workers := <[i := w']> (workers sys) |}
      end
  end.

(** The events of a trace, oldest first. *)
Definition run (trace : list event) (sys : system) : system :=
  foldl (fun sys e => step e sys) sys trace.

(** The states of the program: what start-up followed by any edits,
    requests and worker actions leads to. *)
Definition reachable (sys : system) : Prop :=
  exists trace, sys = run trace initial_system.

(** A session is active while its external process is being read. *)
Definition is_reading (w : worker) : bool :=
  match w with
  | Reading _ _ => true
  | _ => false
  end.

Definition active_sessions (sys : system) : nat :=
  length (List.filter is_reading (workers sys)).

(** Threads that have not left [_run_sqlmap]. *)
Definition is_live (w : worker) : bool :=
  match w with
  | Ended => false
  | _ => true
  end.

Definition live_workers (sys : system) : nat :=
  length (List.filter is_live (workers sys)).

End System.

(* ================================================================= *)
(** ** The vocabulary of the specification *)

Module Spec.
Import Py Options Gui Compiler Supervisor Presets System.

(** The declared default of an option is the value its variable is
    created with. *)
Definition at_default (vs : variables) (x : var) : Prop :=
  get vs x = get initial_variables x.

(** Two snapshots of the Option Model agree when every scan option has
    the same value in both. *)
Definition same_options (vs1 vs2 : variables) : Prop :=
  forall x, is_option x = true -> get vs1 x = get vs2 x.

(** The canonical table of the techniques: sub-option and letter. *)
Definition technique_table : list (BooleanVar * string) :=
  [ (tech_boolean_var, "B"); (tech_error_var, "E"); (tech_union_var, "U");
    (tech_stacked_var, "S"); (tech_time_var, "T"); (tech_inline_var, "Q") ].

(** The letters of the enabled techniques, in the order of the table. *)
Definition canonical_letters (vs : variables) : string :=
  String.concat EmptyString
    (map snd (List.filter (fun e => bool_get vs (fst e)) technique_table)).

Definition some_technique (vs : variables) : bool :=
  existsb (fun e => bool_get vs (fst e)) technique_table.

Definition is_technique_token (token : string) : bool :=
  startswith "--technique=" token.

(** The flag that starts the token of a text or valued option. *)
Definition str_flag (x : StringVar) : option string :=
  match x with
  | url_var => Some "-u " | data_var => Some "--data="
  | cookie_var => Some "--cookie=" | user_agent_var => Some "--user-agent="
  | referer_var => Some "--referer=" | headers_var => Some "--headers="
  | proxy_var => Some "--proxy="
  | risk_var => Some "--risk=" | level_var => Some "--level="
  | threads_var => Some "--threads=" | timeout_var => Some "--timeout="
  | retries_var => Some "--retries=" | delay_var => Some "--delay="
  | output_dir_var => Some "--output-dir="
  | database_var => Some "-D " | table_var => Some "-T "
  | wordlist_var => Some "--wordlist="
  | status_var | progress_var => None
  end.

(** The token of a boolean option, or the letter of a technique. *)
Definition bool_flag (x : BooleanVar) : string + ascii :=
  match x with
  | tor_var => inl "--tor" | random_agent_var => inl "--random-agent"
  | batch_var => inl "--batch" | verbose_var => inl "-v"
  | enum_dbs_var => inl "--dbs" | enum_tables_var => inl "--tables"
  | enum_columns_var => inl "--columns" | enum_schema_var => inl "--schema"
  | dump_all_var => inl "--dump-all" | dump_table_var => inl "--dump"
  | dump_columns_var => inl "--dump-columns" | count_var => inl "--count"
  | common_tables_var => inl "--common-tables"
  | common_columns_var => inl "--common-columns"
  | tech_boolean_var => inr "B"%char | tech_error_var => inr "E"%char
  | tech_union_var => inr "U"%char | tech_stacked_var => inr "S"%char
  | tech_time_var => inr "T"%char | tech_inline_var => inr "Q"%char
  | os_detect_var => inl "--os-detect" | dbms_detect_var => inl "--dbms-detect"
  end.

(** What follows [--technique=] in a token. *)
Definition technique_letters_of (token : string) : list ascii :=
  drop 12 (list_ascii_of_string token).

(** [token_for x token]: [token] is a token of option [x].  For a text
    or valued option it starts with the option's flag; for a boolean
    option it is the bare flag; for a technique it is the technique token
    and the technique's letter is among its letters. *)
Definition token_for (x : var) (token : string) : bool :=
  match x with
  | SV s =>
      match str_flag s with
      | Some flag => startswith flag token
      | None => false
      end
  | BV b =>
      match bool_flag b with
      | inl flag => String.eqb flag token
      | inr letter =>
          is_technique_token token
          && existsb (Ascii.eqb letter) (technique_letters_of token)
      end
  end.

(** The snapshot of the end-to-end example: everything at its default
    but the URL, the risk, the enumeration of databases and the union
    technique. *)
Definition example_snapshot : variables :=
  bool_set tech_union_var true
    (bool_set enum_dbs_var true
      (str_set risk_var "3"
        (str_set url_var "http://t/x?id=1" initial_variables))).

(** An external process that prints one line of diagnostics and exits
    with status 2. *)
Definition failing_process : process :=
  {| popen_error := None;
     stdout := [Line ("sqlmap: error: missing a mandatory option" +:+ nl)];
     returncode := 2 |}.

(** An external process with two lines of output and exit status 0. *)
Definition quiet_process : process :=
  {| popen_error := None;
     stdout := [Line ("a" +:+ nl); Line ("b" +:+ nl)];
     returncode := 0 |}.

(** The form after a command was generated for a target and an execution
    was started at [12:00:00]. *)
Definition running_state : state :=
  fst (execute_sqlmap "2024-01-01 12:00:00"
         (generate_command
            (with_vars (str_set url_var "http://t/x?id=1") initial_state))).

(** An execution is started, the user asks to stop it while its process
    is being read, and asks for a second execution. *)
Definition stop_trace : list event :=
  [ Generate;
    Execute "2024-01-01 12:00:00" quiet_process;
    Worker 0 "2024-01-01 12:00:01";
    Stop;
    Execute "2024-01-01 12:00:02" quiet_process;
    Worker 1 "2024-01-01 12:00:03" ].

(** The form as [quick_scan] hands it to [execute_sqlmap]. *)
Definition quick_scan_form (s : state) : state :=
  generate_command
    (with_vars (bool_set random_agent_var true)
       (with_vars (bool_set verbose_var true)
          (with_vars (bool_set batch_var true)
             (with_vars (str_set level_var "3")
                (with_vars (str_set risk_var "2") s))))).

(** The Running state of the specification: a process has been launched
    and a worker reads its output.  The running flag is not part of it: a
    stop request clears the flag of a system that stays Running. *)
Definition Running (sys : system) : Prop := 1 <= active_sessions sys.

(** The events by which the user edits the widgets: typing in an entry,
    clicking a check button, choosing a path in a file dialog, editing one
    of the two text widgets. *)
Definition is_edit (e : event) : bool :=
  match e with
  | Type_text _ _ | Click_check _ | Browse_output_dir _ | Browse_wordlist _
  | Edit_command_text _ | Edit_output_text _ => true
  | _ => false
  end.

(** The variables and the contents of the two text widgets are all that
    differs between the two forms. *)
Definition edited (s s' : state) : Prop :=
  exists f g h,
    s' = with_output_text h (with_command_text g (with_vars f s)).

(** The edits that bring the options of [from] to those of [target]: the
    text of [target] is typed in every entry, and every check button on
    which the two differ is clicked. *)
Definition fill_form (from target : variables) : list event :=
  map (fun x => Type_text x (str_get target x)) all_str_vars
  ++ flat_map (fun x => if Bool.eqb (bool_get from x) (bool_get target x)
                        then [] else [Click_check x]) all_bool_vars.

(** While the running flag is set there is a command. *)
Definition command_ready (s : state) : Prop :=
  is_running s = true -> truthy (current_command s) = true.

(** What one event does to the running flag, the command and the
    threads: it starts a thread from a state whose flag is clear and sets
    the flag; or it keeps the flag and the threads; or a live thread ends
    and the flag is cleared; or a thread takes a step and stays as live
    as it was.  A stop request that finds the flag set is none of these:
    see [stopped]. *)
Inductive step_kind (sys sys' : system) : Prop :=
| sk_start (p : process) :
    is_running (gui sys) = false ->
    is_running (gui sys') = true ->
    truthy (current_command (gui sys')) = true ->
    workers sys' = workers sys ++ [Spawned p] ->
    step_kind sys sys'
| sk_keep :
    is_running (gui sys') = is_running (gui sys) ->
    (truthy (current_command (gui sys)) = true ->
     truthy (current_command (gui sys')) = true) ->
    workers sys' = workers sys ->
    step_kind sys sys'
| sk_end (i : nat) (w : worker) :
    workers sys !! i = Some w ->
    is_live w = true ->
    is_running (gui sys') = false ->
    workers sys' = <[i := Ended]> (workers sys) ->
    step_kind sys sys'
| sk_work (i : nat) (w w' : worker) :
    workers sys !! i = Some w ->
    is_live w' = is_live w ->
    is_running (gui sys') = is_running (gui sys) ->
    current_command (gui sys') = current_command (gui sys) ->
    workers sys' = <[i := w']> (workers sys) ->
    step_kind sys sys'.

(** A stop request found the flag set: the flag is cleared and the
    threads are as they were. *)
Definition stopped (sys sys' : system) : Prop :=
  is_running (gui sys) = true
  /\ is_running (gui sys') = false
  /\ current_command (gui sys') = current_command (gui sys)
  /\ workers sys' = workers sys.

(** At most one thread has not left [_run_sqlmap], and none when the
    running flag is clear. *)
Definition exclusive (sys : system) : Prop :=
  live_workers sys <= (if is_running (gui sys) then 1 else 0).

(** The user enters a target, has the command generated and executes it;
    the process is launched and its first line is read. *)
Definition scan_trace : list event :=
  [ Type_text url_var "http://t/x?id=1";
    Click_check enum_dbs_var;
    Browse_output_dir "/tmp/out";
    Generate;
    Execute "2024-01-01 12:00:00" quiet_process;
    Worker 0 "2024-01-01 12:00:01";
    Worker 0 "2024-01-01 12:00:02" ].

Definition scanning_system : system := run scan_trace initial_system.

(** The same, followed by a stop request: the process is still being
    read. *)
Definition stopped_system : system := step Stop scanning_system.

(** What [execute_sqlmap] writes to the output widget before it starts the
    thread. *)
Definition started_header (now command : string) : string :=
  (rule +:+ nl)
  +:+ ("🔒 SQLMap Professional Scanner - Execution Started" +:+ nl)
  +:+ ("⏰ Time: " +:+ now +:+ nl)
  +:+ ("🎯 Command: " +:+ command +:+ nl)
  +:+ (rule +:+ nl +:+ nl).

(** Every value of the preset has the kind of the variable it is for: a
    [str] for a [StringVar], a [bool] for a [BooleanVar]. *)
Definition kinds_agree (x : var) (v : value) : Prop :=
  match x, v with
  | SV _, VStr _ | BV _, VBool _ => True
  | _, _ => False
  end.

Definition well_kinded (p : preset) : Prop :=
  forall x v, p !! key x = Some v -> kinds_agree x v.

(** The name consists of characters with code points of at most 127. *)
Definition all_ascii (name : string) : Prop :=
  forall c, In c (list_ascii_of_string name) -> nat_of_ascii c <= 127.

(** The name has a character with a code point above 127. *)
Definition has_non_ascii (name : string) : Prop :=
  exists c, In c (list_ascii_of_string name) /\ 127 < nat_of_ascii c.

(** [save_preset], given [answer] by the dialog, reaches its assignment
    and files the collected settings under the key [k]. *)
Definition stored_under (answer : option string) (s : state) (k : string)
    : Prop :=
  exists s1, save_preset_assign answer s = Some (k, s1)
             /\ presets s1 = <[k := collect (vars s)]> (presets s).

(** The form with risk 3 and the enumeration of databases switched on. *)
Definition example_form : state :=
  with_vars (fun vs => bool_set enum_dbs_var true (str_set risk_var "3" vs))
    initial_state.

(** The first preset of the literal of [load_presets]. *)
Definition quick_scan_preset : preset :=
  list_to_map [("risk", VStr "2"); ("level", VStr "3");
               ("batch", VBool true); ("verbose", VBool true);
               ("random_agent", VBool true)].

End Spec.

(* ================================================================= *)
(** ** More vocabulary: events of a run, texts of the output widget *)

Module Properties.
Import Py Options Gui Compiler Supervisor Presets System Spec.

#[global] Instance value_eq_dec : EqDecision value.
Proof. solve_decision. Defined.

(** The two callbacks that end a run. *)
Definition is_terminal (cb : callback) : bool :=
  match cb with
  | cb_update_output _ => false
  | cb_execution_finished | cb_execution_error _ => true
  end.

(** The lines of a process, one after the other. *)
Definition lines_text (lines : list string) : string :=
  fold_right String.append EmptyString lines.

(** What [_execution_finished] appends to the output widget. *)
Definition finished_footer (now : string) : string :=
  (nl +:+ rule +:+ nl)
  +:+ ("✅ SQLMap execution completed successfully" +:+ nl)
  +:+ ("⏰ Completed at: " +:+ now +:+ nl)
  +:+ (rule +:+ nl).

(** The dialog of [_execution_error]. *)
Definition error_dialog (error : string) : effect :=
  showerror "Error" ("❌ SQLMap execution failed:" +:+ nl +:+ error).

(** The names of the listbox after [load_presets], in source order. *)
Definition builtin_names : list string :=
  ["🚀 Quick Scan"; "🔍 Comprehensive Scan"; "📊 Database Enumeration";
   "💾 Data Extraction"; "🎯 Stealth Mode"; "⚡ Aggressive Scan"].

(** The store and the listbox are the ones [load_presets] builds. *)
Definition presets_in_sync (s : state) : Prop :=
  presets s = list_to_map builtin_presets /\ preset_listbox s = builtin_names.

(** A trace with one execution that runs to its end and a second one that
    is started after it, with no stop request: the user fills in the form,
    asks for a quick scan, edits the form while it runs, asks in vain for
    an execution, saves the output, and executes again once the first
    process has ended. *)
Definition two_runs_trace : list event :=
  [ Type_text url_var "http://t/x?id=1";
    Click_check tech_union_var;
    Quick_scan "2024-01-01 12:00:00" quiet_process;
    Worker 0 "2024-01-01 12:00:01";
    Type_text risk_var "3";
    Browse_wordlist "/tmp/words.txt";
    Execute "2024-01-01 12:00:02" quiet_process;
    Worker 0 "2024-01-01 12:00:03";
    Edit_command_text "sqlmap --version";
    Save_output "/tmp/out.txt" None;
    Worker 0 "2024-01-01 12:00:04";
    Worker 0 "2024-01-01 12:00:05";
    Generate;
    Execute "2024-01-01 12:00:06" failing_process;
    Worker 1 "2024-01-01 12:00:07" ].

(** How the reading of a stream ends at [rest], and the callback that is
    scheduled there: at the end of the stream and at an empty line
    [readline] gives the sentinel of [iter] and the run is finished; an
    exception is reported. *)
Definition run_ending (rest : list readline_result) (term : callback) : Prop :=
  match rest with
  | [] => term = cb_execution_finished
  | Line text :: _ => truthy text = false /\ term = cb_execution_finished
  | Raises error :: _ => term = cb_execution_error error
  end.

(** [lines] are the lines read from the process of [p] before its run
    ends with [term]: none when [Popen] raises; otherwise the non-empty
    lines at the head of its output, up to where the reading ends. *)
Definition forwarded (p : process) (lines : list string) (term : callback)
    : Prop :=
  match popen_error p with
  | Some error => lines = [] /\ term = cb_execution_error error
  | None =>
      Forall (fun l => truthy l = true) lines
      /\ exists rest, stdout p = map Line lines ++ rest /\ run_ending rest term
  end.

(** A process whose output cannot be read after its first line. *)
Definition broken_pipe_process : process :=
  {| popen_error := None;
     stdout := [Line ("a" +:+ nl); Raises "broken pipe"; Line ("b" +:+ nl)];
     returncode := 0 |}.

End Properties.

(* ================================================================= *)
(** ** Facts about the variables *)

Module OptionsFacts.
Import Py Options.

Lemma find_var_key (x : var) : find_var (key x) = Some x.
Proof. destruct x as [[]|[]]; reflexivity. Qed.

Lemma find_var_Some (k : string) (x : var) : find_var k = Some x -> key x = k.
Proof.
  unfold find_var. intros H. apply find_some in H as [_ H].
  by apply String.eqb_eq.
Qed.

Lemma key_inj (x y : var) : key x = key y -> x = y.
Proof.
  intros H. pose proof (find_var_key x) as Hx. rewrite H in Hx.
  rewrite find_var_key in Hx. congruence.
Qed.

End OptionsFacts.

(* ================================================================= *)
(** ** The command compiler *)

Module CompilerFacts.
Import Py Options Gui Compiler Presets Spec.

Lemma filter_append_if (f : string -> bool) (cond : bool) (token : string) :
  f token = false -> List.filter f (append_if cond token) = [].
Proof. intros H. destruct cond; simpl; [by rewrite H | done]. Qed.

Lemma filter_text_option (f : string -> bool) (flag v : string) :
  f (flag +:+ dq +:+ v +:+ dq) = false -> List.filter f (text_option flag v) = [].
Proof. apply filter_append_if. Qed.

Lemma filter_valued_option (f : string -> bool) (flag d v : string) :
  f (flag +:+ v) = false -> List.filter f (valued_option flag d v) = [].
Proof. apply filter_append_if. Qed.

(** The list [techniques] of the source is the canonical table filtered
    by the six booleans. *)
Lemma techniques_canonical (vs : variables) :
  techniques vs =
    map snd (List.filter (fun e => bool_get vs (fst e)) technique_table).
Proof.
  unfold techniques, technique_table, append_if. simpl.
  destruct (bool_get vs tech_boolean_var), (bool_get vs tech_error_var),
    (bool_get vs tech_union_var), (bool_get vs tech_stacked_var),
    (bool_get vs tech_time_var), (bool_get vs tech_inline_var); reflexivity.
Qed.

Lemma technique_option_spec (vs : variables) :
  technique_option vs =
    if some_technique vs
    then ["--technique=" +:+ canonical_letters vs]
    else [].
Proof.
  unfold technique_option, canonical_letters, some_technique, join.
  rewrite techniques_canonical. unfold technique_table. simpl.
  destruct (bool_get vs tech_boolean_var), (bool_get vs tech_error_var),
    (bool_get vs tech_union_var), (bool_get vs tech_stacked_var),
    (bool_get vs tech_time_var), (bool_get vs tech_inline_var); reflexivity.
Qed.

Lemma filter_technique_option (vs : variables) :
  List.filter is_technique_token (technique_option vs) = technique_option vs.
Proof.
  unfold technique_option. destruct (techniques vs); reflexivity.
Qed.

Lemma technique_tokens_of_command (vs : variables) :
  List.filter is_technique_token (command_parts vs) = technique_option vs.
Proof.
  unfold command_parts.
  repeat rewrite List.filter_app.
  rewrite filter_technique_option.
  repeat (rewrite filter_text_option by reflexivity).
  repeat (rewrite filter_valued_option by reflexivity).
  repeat (rewrite filter_append_if by reflexivity).
  simpl. by rewrite app_nil_r.
Qed.

(** C4.  Among the tokens of the command, those that start with
    [--technique=] are: none when the six technique booleans are all
    false, and otherwise the single token [--technique=] followed by the
    letters B, E, U, S, T, Q of the enabled techniques in the order of the
    canonical table.  The command read after two techniques were switched
    on does not depend on which was switched on first, and time-blind with
    boolean-blind gives [--technique=BT]. *)
Theorem technique_token_canonical (vs : variables) :
  List.filter is_technique_token (command_parts vs) =
    (if some_technique vs then ["--technique=" +:+ canonical_letters vs] else [])
  /\ (forall x y : BooleanVar,
        command_parts (bool_set x true (bool_set y true vs)) =
        command_parts (bool_set y true (bool_set x true vs)))
  /\ List.filter is_technique_token
       (command_parts
          (bool_set tech_boolean_var true
             (bool_set tech_time_var true initial_variables))) =
     ["--technique=BT"].
Proof.
  split; [| split].
  - rewrite technique_tokens_of_command. apply technique_option_spec.
  - intros x y. destruct x, y; reflexivity.
  - reflexivity.
Qed.

(** C6.  The example snapshot compiles to the program name followed by
    the URL token, [--risk=3], [--dbs] and [--technique=U], in this
    order. *)
Theorem example_end_to_end :
  command_parts example_snapshot =
    ["sqlmap"; "-u " +:+ dq +:+ "http://t/x?id=1" +:+ dq;
     "--risk=3"; "--dbs"; "--technique=U"]
  /\ compile example_snapshot =
     "sqlmap -u " +:+ dq +:+ "http://t/x?id=1" +:+ dq
       +:+ " --risk=3 --dbs --technique=U".
Proof. split; reflexivity. Qed.

Lemma in_append_if (token : string) (cond : bool) (t : string) :
  In token (append_if cond t) -> cond = true /\ token = t.
Proof. destruct cond; simpl; intuition. Qed.

Lemma in_text_option (token flag v : string) :
  In token (text_option flag v) ->
  truthy v = true /\ token = flag +:+ dq +:+ v +:+ dq.
Proof. apply in_append_if. Qed.

Lemma in_valued_option (token flag d v : string) :
  In token (valued_option flag d v) ->
  str_ne v d = true /\ token = flag +:+ v.
Proof. apply in_append_if. Qed.

Lemma in_technique_option (token : string) (vs : variables) :
  In token (technique_option vs) ->
  token = "--technique=" +:+ join EmptyString (techniques vs).
Proof.
  unfold technique_option. destruct (techniques vs); simpl; intuition.
Qed.

(** The letter of a technique that is off is not among the letters of
    the technique token. *)
Lemma technique_off_letter_absent (vs : variables) (b : BooleanVar) (letter : ascii) :
  bool_flag b = inr letter ->
  bool_get vs b = false ->
  existsb (Ascii.eqb letter)
    (technique_letters_of ("--technique=" +:+ join EmptyString (techniques vs)))
  = false.
Proof.
  intros Hflag Hoff. unfold techniques.
  destruct b; try discriminate Hflag; injection Hflag as <-; rewrite Hoff;
    destruct (bool_get vs tech_boolean_var), (bool_get vs tech_error_var),
      (bool_get vs tech_union_var), (bool_get vs tech_stacked_var),
      (bool_get vs tech_time_var), (bool_get vs tech_inline_var);
    try discriminate Hoff; reflexivity.
Qed.

Ltac split_in H :=
  repeat match type of H with
         | In _ (_ ++ _) => apply in_app_or in H; destruct H as [H | H]
         end.

Ltac invert_part H Hc :=
  first [ apply in_text_option in H as [Hc ->]
        | apply in_valued_option in H as [Hc ->]
        | apply in_append_if in H as [Hc ->]
        | apply in_technique_option in H as -> ; pose proof I as Hc
        | (simpl in H; destruct H as [<- | []]; pose proof I as Hc) ].

(** C5.  For every snapshot and every scan option whose variable holds
    the value it was created with (risk, level and threads 1, timeout 30,
    retries 3, delay 0, a boolean false, a text empty), no token of the
    command is a token of that option. *)
Theorem default_option_has_no_token (vs : variables) (x : var) :
  is_option x = true ->
  at_default vs x ->
  forall token, In token (command_parts vs) -> token_for x token = false.
Proof.
  intros Hopt Hdef token Hin. unfold at_default in Hdef.
  unfold command_parts in Hin. split_in Hin; invert_part Hin Hc.
  all: destruct x as [[] | []]; try discriminate Hopt;
    simpl in Hdef; injection Hdef as Hdef;
    try reflexivity;
    try (rewrite Hdef in Hc; discriminate Hc).
  all: unfold token_for; simpl bool_flag; cbv iota;
    match type of Hdef with
    | bool_get _ ?b = false =>
        rewrite (technique_off_letter_absent vs b _ eq_refl Hdef)
    end;
    apply andb_false_r.
Qed.

Lemma in_append_if_true (cond : bool) (token : string) :
  cond = true -> In token (append_if cond token).
Proof. intros ->. by left. Qed.

Lemma truthy_of_ne (v : string) : v <> EmptyString -> truthy v = true.
Proof. by destruct v. Qed.

Lemma str_ne_of_ne (v d : string) : v <> d -> str_ne v d = true.
Proof.
  intros H. unfold str_ne. apply negb_true_iff. by apply String.eqb_neq.
Qed.

Lemma in_technique_option_on (vs : variables) (b : BooleanVar) (letter : ascii) :
  bool_flag b = inr letter ->
  bool_get vs b = true ->
  In ("--technique=" +:+ join EmptyString (techniques vs)) (technique_option vs)
  /\ existsb (Ascii.eqb letter)
       (technique_letters_of
          ("--technique=" +:+ join EmptyString (techniques vs))) = true.
Proof.
  intros Hflag Hon. unfold technique_option, techniques.
  destruct b; try discriminate Hflag; injection Hflag as <-; rewrite Hon;
    destruct (bool_get vs tech_boolean_var), (bool_get vs tech_error_var),
      (bool_get vs tech_union_var), (bool_get vs tech_stacked_var),
      (bool_get vs tech_time_var), (bool_get vs tech_inline_var);
    try discriminate Hon; split; first [by left | reflexivity].
Qed.

Ltac pick_part tac :=
  unfold command_parts;
  repeat match goal with
         | |- In _ (_ ++ _) =>
             apply in_or_app; first [ left; solve [tac] | right ]
         end;
  solve [tac].

(** The converse of C5: an option that is not at its default has a token
    in the command. *)
Lemma non_default_option_has_token (vs : variables) (x : var) :
  is_option x = true ->
  ~ at_default vs x ->
  exists token, In token (command_parts vs) /\ token_for x token = true.
Proof.
  intros Hopt Hdef. unfold at_default in Hdef.
  destruct x as [x | x].
  - assert (Hne : str_get vs x <> str_initial x).
    { intros Heq. apply Hdef. simpl. by rewrite Heq. }
    destruct x; try discriminate Hopt; simpl in Hne;
      first
        [ pose proof (truthy_of_ne _ Hne) as Hc;
          eexists; split;
          [ pick_part ltac:(apply in_append_if_true; exact Hc) | reflexivity ]
        | pose proof (str_ne_of_ne _ _ Hne) as Hc;
          eexists; split;
          [ pick_part ltac:(apply in_append_if_true; exact Hc) | reflexivity ] ].
  - assert (Hon : bool_get vs x = true).
    { destruct (bool_get vs x) eqn:Hb; [done |]. exfalso. apply Hdef. simpl.
      by rewrite Hb. }
    destruct (bool_flag x) as [flag | letter] eqn:Hflag.
    + destruct x; try discriminate Hflag; injection Hflag as <-;
        eexists; (split;
          [ pick_part ltac:(apply in_append_if_true; exact Hon) | reflexivity ]).
    + destruct (in_technique_option_on vs x letter Hflag Hon) as [Hin Hlet].
      eexists. split.
      * pick_part ltac:(exact Hin).
      * unfold token_for. rewrite Hflag, Hlet. reflexivity.
Qed.

(** The command of a snapshot only depends on its scan options. *)
Lemma command_parts_same_options (vs1 vs2 : variables) :
  same_options vs1 vs2 -> command_parts vs1 = command_parts vs2.
Proof.
  intros H.
  assert (Hs : forall x, is_option (SV x) = true -> str_get vs1 x = str_get vs2 x).
  { intros x Hx. specialize (H (SV x) Hx). simpl in H. congruence. }
  assert (Hb : forall x, bool_get vs1 x = bool_get vs2 x).
  { intros x. specialize (H (BV x) eq_refl). simpl in H. congruence. }
  unfold command_parts, technique_option, techniques.
  rewrite !Hb. rewrite !Hs by reflexivity. reflexivity.
Qed.

(** [generate_command] writes the command and the status bar, and leaves
    every scan option as it was. *)
Lemma generate_command_keeps_options (s : state) :
  same_options (vars (generate_command s)) (vars s).
Proof. intros [[] | []] Hopt; try discriminate Hopt; reflexivity. Qed.

Lemma generate_command_current_command (s : state) :
  current_command (generate_command s) = compile (vars s).
Proof. reflexivity. Qed.

(** C7.  The command that [generate_command] leaves in
    [self.current_command] is a function of the scan options alone: two
    states that agree on them, whatever the rest of their fields, get the
    same string, and compiling again right after a compilation gives the
    same string once more. *)
Theorem generate_command_deterministic (s1 s2 : state) :
  same_options (vars s1) (vars s2) ->
  current_command (generate_command s1) = current_command (generate_command s2)
  /\ current_command (generate_command (generate_command s1)) =
     current_command (generate_command s1).
Proof.
  intros H. rewrite !generate_command_current_command. unfold compile. split.
  - by rewrite (command_parts_same_options _ _ H).
  - by rewrite (command_parts_same_options _ _ (generate_command_keeps_options s1)).
Qed.

Lemma generate_command_deterministic_witness :
  same_options (vars initial_state)
               (vars (with_is_running true (set_status "busy" initial_state)))
  /\ current_command (generate_command initial_state) =
     current_command
       (generate_command (with_is_running true (set_status "busy" initial_state)))
  /\ current_command (generate_command (generate_command initial_state)) =
     current_command (generate_command initial_state).
Proof.
  assert (H : same_options (vars initial_state)
                (vars (with_is_running true (set_status "busy" initial_state)))).
  { intros [[] | []] Hopt; try discriminate Hopt; reflexivity. }
  split; [exact H |].
  exact (generate_command_deterministic _ _ H).
Defined.

Lemma default_option_has_no_token_witness :
  is_option (SV level_var) = true
  /\ at_default example_snapshot (SV level_var)
  /\ forall token, In token (command_parts example_snapshot) ->
                  token_for (SV level_var) token = false.
Proof.
  split; [reflexivity |]. split; [reflexivity |].
  apply (default_option_has_no_token example_snapshot (SV level_var));
    reflexivity.
Defined.

End CompilerFacts.

(* ================================================================= *)
(** ** The execution supervisor *)

Module SupervisorFacts.
Import Py Options Gui Compiler Supervisor Presets System Spec.

(** The exit status plays no part in what the worker schedules. *)
Lemma read_loop_returncode_unused (reads : list readline_result) (rc rc' : Z) :
  read_loop reads rc = read_loop reads rc'.
Proof.
  induction reads as [| [text | error] rest IH]; simpl; [done | | done].
  destruct (truthy text); [by rewrite IH | done].
Qed.

(** Whatever the exit status, a process whose output was read to the end
    of the stream gets the completion callback, never the error one. *)
Lemma run_sqlmap_exit_schedules_finished (lines : list string) (rc : Z) :
  Forall (fun l => truthy l = true) lines ->
  _run_sqlmap {| popen_error := None; stdout := map Line lines; returncode := rc |}
  = map cb_update_output lines ++ [cb_execution_finished].
Proof.
  unfold _run_sqlmap. simpl. induction 1 as [| l lines Hl _ IH]; simpl.
  - reflexivity.
  - rewrite Hl. by rewrite IH.
Qed.

Lemma worker_run_ended (fuel : nat) : worker_run fuel Ended = [].
Proof. induction fuel as [| fuel IH]; simpl; auto. Qed.

(** The small steps of a worker schedule what [_run_sqlmap] schedules. *)
Lemma worker_run_reading (reads : list readline_result) (rc : Z) (fuel : nat) :
  length reads < fuel ->
  worker_run fuel (Reading reads rc) = read_loop reads rc.
Proof.
  revert fuel. induction reads as [| [text | error] rest IH]; intros fuel Hfuel;
    (destruct fuel as [| fuel]; [simpl in Hfuel; lia |]); simpl.
  - by rewrite worker_run_ended.
  - destruct (truthy text).
    + rewrite IH; [done | simpl in Hfuel; lia].
    + by rewrite worker_run_ended.
  - by rewrite worker_run_ended.
Qed.

Lemma worker_run_spawned (p : process) (fuel : nat) :
  S (length (stdout p)) < fuel ->
  worker_run fuel (Spawned p) = _run_sqlmap p.
Proof.
  intros Hfuel. destruct fuel as [| fuel]; [lia |]. unfold _run_sqlmap. simpl.
  destruct (popen_error p).
  - by rewrite worker_run_ended.
  - apply worker_run_reading. lia.
Qed.

(** C1 (what the code does).  The process prints a diagnostic and exits
    with status 2: the worker schedules the line and then
    [_execution_finished]; the main loop shows the Success dialog, sets
    the status bar to the success message, reports no error, and clears
    the running flag. *)
Theorem abnormal_exit_reported_as_success :
  _run_sqlmap failing_process =
    [cb_update_output ("sqlmap: error: missing a mandatory option" +:+ nl);
     cb_execution_finished]
  /\ snd (run_callbacks "2024-01-01 12:00:05" (_run_sqlmap failing_process)
            running_state) =
     [showinfo "Success" "🎉 SQLMap execution completed successfully!"]
  /\ str_get (vars (fst (run_callbacks "2024-01-01 12:00:05"
                           (_run_sqlmap failing_process) running_state)))
       status_var = "🟢 SQLMap execution completed successfully"
  /\ is_running running_state = true
  /\ is_running (fst (run_callbacks "2024-01-01 12:00:05"
                        (_run_sqlmap failing_process) running_state)) = false.
Proof. repeat split; reflexivity. Qed.

End SupervisorFacts.

(* ================================================================= *)
(** ** Requests and worker threads interleaved *)

Module SystemFacts.
Import Py Options Gui Compiler Supervisor Presets Dialogs System Spec.

Lemma run_snoc (trace : list event) (e : event) (sys : system) :
  run (trace ++ [e]) sys = step e (run trace sys).
Proof. unfold run. by rewrite foldl_app. Qed.

Lemma reachable_step (e : event) (sys : system) :
  reachable sys -> reachable (step e sys).
Proof.
  intros [trace ->]. exists (trace ++ [e]). by rewrite run_snoc.
Qed.

Lemma join_cons_truthy (sep x : string) (l : list string) :
  truthy x = true -> truthy (join sep (x :: l)) = true.
Proof.
  intros Hx. destruct x as [| c x]; [discriminate |].
  unfold join. destruct l; reflexivity.
Qed.

(** A compiled command starts with the program name. *)
Lemma compile_truthy (vs : variables) : truthy (compile vs) = true.
Proof. exact (join_cons_truthy " " "sqlmap" _ eq_refl). Qed.

Lemma is_running_status_bar (a b : string) (s : state) :
  is_running (set_progress a (set_status b s)) = is_running s.
Proof. reflexivity. Qed.

Lemma current_command_status_bar (a b : string) (s : state) :
  current_command (set_progress a (set_status b s)) = current_command s.
Proof. reflexivity. Qed.

Lemma is_running_quick_scan_form (s : state) :
  is_running (quick_scan_form s) = is_running s.
Proof. reflexivity. Qed.

Lemma quick_scan_form_truthy (s : state) :
  truthy (current_command (quick_scan_form s)) = true.
Proof. apply compile_truthy. Qed.

(** The two ways [execute_sqlmap] can go: it starts one thread, from a
    state with a command and the flag clear, and sets the flag; or it
    returns every field as it was and starts nothing. *)
Lemma execute_sqlmap_inv (now : string) (s s' : state) (effects : list effect) :
  execute_sqlmap now s = (s', effects) ->
  (truthy (current_command s) = true /\ is_running s = false
   /\ effects = [thread_start (current_command s)]
   /\ is_running s' = true
   /\ current_command s' = current_command s)
  \/ ((truthy (current_command s) = false \/ is_running s = true)
      /\ s' = s
      /\ forall p, spawn p effects = []).
Proof.
  unfold execute_sqlmap.
  destruct (truthy (current_command s)) eqn:Hc; cbn [negb].
  - destruct (is_running s) eqn:Hr; intros [= <- <-].
    + right. auto.
    + left. auto.
  - intros [= <- <-]. right. auto.
Qed.

Lemma quick_scan_inv (now : string) (s s' : state) (effects : list effect) :
  quick_scan now s = (s', effects) ->
  (is_running s = false
   /\ (forall p, spawn p effects = [Spawned p])
   /\ is_running s' = true
   /\ truthy (current_command s') = true)
  \/ (is_running s' = is_running s
      /\ (forall p, spawn p effects = [])
      /\ (truthy (current_command s) = true ->
          truthy (current_command s') = true)).
Proof.
  unfold quick_scan.
  destruct (negb (truthy (str_get (vars s) url_var))).
  { intros [= <- <-]. right. auto. }
  fold (quick_scan_form s).
  destruct (execute_sqlmap now (quick_scan_form s)) as [s1 effects1] eqn:Hex.
  intros [= <- <-].
  rewrite is_running_status_bar, current_command_status_bar.
  rewrite <- (is_running_quick_scan_form s).
  destruct (execute_sqlmap_inv _ _ _ _ Hex)
    as [(_ & Hoff & -> & Hon & Hcmd) | (_ & -> & Hsnd)].
  - left. rewrite Hcmd.
    split; [exact Hoff |]. split; [reflexivity |]. split; [exact Hon |].
    apply quick_scan_form_truthy.
  - right. split; [reflexivity |]. split; [exact Hsnd |].
    intros _. apply quick_scan_form_truthy.
Qed.

Lemma after_outcome_load_preset (selection : option nat) (s : state) :
  is_running (after_outcome (load_preset selection s) s) = is_running s
  /\ current_command (after_outcome (load_preset selection s) s)
     = current_command s.
Proof.
  unfold load_preset. destruct selection as [index |]; [| done].
  cbv zeta. destruct (presets s !! listbox_get s index) as [p |]; [| done].
  destruct (apply_preset p (vars s)); done.
Qed.

Lemma after_outcome_delete_preset (selection : option nat) (confirm : bool)
    (s : state) :
  is_running (after_outcome (delete_preset selection confirm s) s) = is_running s
  /\ current_command (after_outcome (delete_preset selection confirm s) s)
     = current_command s.
Proof.
  unfold delete_preset, delete_preset_del.
  destruct selection as [index |]; [| done]. destruct confirm; [| done].
  cbv zeta. destruct (presets s !! listbox_get s index); done.
Qed.

Lemma save_preset_flags (answer : option string) (s : state) :
  is_running (fst (save_preset answer s)) = is_running s
  /\ current_command (fst (save_preset answer s)) = current_command s.
Proof.
  unfold save_preset, save_preset_assign. destruct answer as [name |]; [| done].
  destruct (negb (truthy name)); done.
Qed.

Lemma worker_step_kind (w : worker) :
  (exists error, worker_step w = (Ended, Some (cb_execution_error error))
                 /\ is_live w = true)
  \/ (worker_step w = (Ended, Some cb_execution_finished) /\ is_live w = true)
  \/ (exists w' text, worker_step w = (w', Some (cb_update_output text))
                      /\ is_live w' = is_live w)
  \/ (exists w', worker_step w = (w', None) /\ is_live w' = is_live w).
Proof.
  destruct w as [p | [| [text | error] rest] rc |]; simpl.
  - destruct (popen_error p); eauto 10.
  - eauto 10.
  - destruct (truthy text); eauto 10.
  - eauto 10.
  - eauto 10.
Qed.

(** *** The edits of the form *)

Lemma edited_refl (s : state) : edited s s.
Proof. exists (fun vs => vs), (fun t => t), (fun t => t). by destruct s. Qed.

Lemma edited_vars (f : variables -> variables) (s : state) :
  edited s (with_vars f s).
Proof. exists f, (fun t => t), (fun t => t). by destruct s. Qed.

Lemma edited_trans (s1 s2 s3 : state) :
  edited s1 s2 -> edited s2 s3 -> edited s1 s3.
Proof.
  intros (f & g & h & ->) (f' & g' & h' & ->).
  by exists (fun vs => f' (f vs)), (fun t => g' (g t)), (fun t => h' (h t)).
Qed.

Lemma type_text_edited (x : StringVar) (text : string) (s : state) :
  edited s (type_text x text s).
Proof.
  unfold type_text. destruct (is_option (SV x)).
  - apply edited_vars.
  - apply edited_refl.
Qed.

Lemma click_check_edited (x : BooleanVar) (s : state) :
  edited s (click_check x s).
Proof. apply edited_vars. Qed.

Lemma browse_output_dir_edited (directory : string) (s : state) :
  edited s (browse_output_dir directory s).
Proof.
  unfold browse_output_dir. destruct (truthy directory).
  - apply edited_vars.
  - apply edited_refl.
Qed.

Lemma browse_wordlist_edited (filename : string) (s : state) :
  edited s (browse_wordlist filename s).
Proof.
  unfold browse_wordlist. destruct (truthy filename).
  - apply edited_vars.
  - apply edited_refl.
Qed.

Lemma edit_command_text_edited (text : string) (s : state) :
  edited s (edit_command_text text s).
Proof. exists (fun vs => vs), (fun _ => text), (fun t => t). by destruct s. Qed.

Lemma edit_output_text_edited (text : string) (s : state) :
  edited s (edit_output_text text s).
Proof. exists (fun vs => vs), (fun t => t), (fun _ => text). by destruct s. Qed.

(** An edit changes variables and the contents of the text widgets, and
    nothing else: not the stored command, the running flag, the store of
    presets or the threads. *)
Lemma step_edit (e : event) (sys : system) :
  is_edit e = true ->
  edited (gui sys) (gui (step e sys)) /\ workers (step e sys) = workers sys.
Proof.
  destruct e; try discriminate; intros _; (split; [| reflexivity]); cbn [step gui].
  - apply type_text_edited.
  - apply click_check_edited.
  - apply browse_output_dir_edited.
  - apply browse_wordlist_edited.
  - apply edit_command_text_edited.
  - apply edit_output_text_edited.
Qed.

(** [save_output] assigns to no field. *)
Lemma step_save_output (filename : string) (failure : option string)
    (sys : system) :
  step (Save_output filename failure) sys = sys.
Proof. reflexivity. Qed.

(** *** Every form can be filled in *)

Lemma run_app (trace1 trace2 : list event) (sys : system) :
  run (trace1 ++ trace2) sys = run trace2 (run trace1 sys).
Proof. unfold run. apply foldl_app. Qed.

Lemma with_vars_id (s : state) : with_vars (fun vs => vs) s = s.
Proof. by destruct s. Qed.

Lemma step_type_text (x : StringVar) (text : string) (sys : system) :
  is_option (SV x) = true ->
  step (Type_text x text) sys
  = {| gui := with_vars (str_set x text) (gui sys); workers := workers sys |}.
Proof. intros H. cbn [step]. unfold type_text. by rewrite H. Qed.

Lemma step_type_text_label (x : StringVar) (text : string) (sys : system) :
  is_option (SV x) = false -> step (Type_text x text) sys = sys.
Proof. intros H. cbn [step]. unfold type_text. rewrite H. by destruct sys. Qed.

(** Typing in the entries of [l]: each option among them holds the text
    that was typed, and nothing else has changed. *)
Lemma run_type_texts (l : list StringVar) (target : variables) (sys : system) :
  exists f,
    run (map (fun x => Type_text x (str_get target x)) l) sys
    = {| gui := with_vars f (gui sys); workers := workers sys |}
    /\ (forall x, x ∈ l -> is_option (SV x) = true ->
        str_get (f (vars (gui sys))) x = str_get target x)
    /\ (forall x, x ∉ l ->
        str_get (f (vars (gui sys))) x = str_get (vars (gui sys)) x)
    /\ (forall y, bool_get (f (vars (gui sys))) y = bool_get (vars (gui sys)) y).
Proof.
  revert sys. induction l as [| x0 l IH]; intros sys.
  - exists (fun vs => vs). rewrite with_vars_id.
    split; [by destruct sys |]. split; [| done].
    intros x Hx. by apply elem_of_nil in Hx.
  - cbn [map]. change (run (?e :: ?t) sys) with (run t (step e sys)).
    destruct (is_option (SV x0)) eqn:Hopt.
    + rewrite (step_type_text _ _ _ Hopt).
      destruct (IH {| gui := with_vars (str_set x0 (str_get target x0)) (gui sys);
                      workers := workers sys |})
        as (f & -> & Hin & Hout & Hbool).
      cbn [gui workers vars with_vars] in *.
      exists (fun vs => f (str_set x0 (str_get target x0) vs)).
      split; [reflexivity |]. split; [| split].
      * intros x Hx Hox. destruct (decide (x ∈ l)) as [Hl | Hl].
        { by apply Hin. }
        apply elem_of_cons in Hx as [-> | Hx]; [| done].
        rewrite (Hout _ Hl). cbn [str_set str_get]. by rewrite decide_True.
      * intros x Hx. apply not_elem_of_cons in Hx as [Hne Hl].
        rewrite (Hout _ Hl). cbn [str_set str_get]. by rewrite decide_False.
      * intros y. by rewrite Hbool.
    + rewrite (step_type_text_label _ _ _ Hopt).
      destruct (IH sys) as (f & -> & Hin & Hout & Hbool).
      exists f. split; [reflexivity |]. split; [| split].
      * intros x Hx Hox. destruct (decide (x ∈ l)) as [Hl | Hl].
        { by apply Hin. }
        apply elem_of_cons in Hx as [-> | Hx]; [congruence | done].
      * intros x Hx. apply not_elem_of_cons in Hx as [_ Hl]. by apply Hout.
      * exact Hbool.
Qed.

(** Clicking the check buttons of [l] that differ from the target: each
    of them then agrees with the target, and nothing else has changed. *)
Lemma run_clicks (l : list BooleanVar) (from target : variables)
    (sys : system) :
  NoDup l ->
  (forall x, x ∈ l -> bool_get (vars (gui sys)) x = bool_get from x) ->
  exists f,
    run (flat_map (fun x => if Bool.eqb (bool_get from x) (bool_get target x)
                            then [] else [Click_check x]) l) sys
    = {| gui := with_vars f (gui sys); workers := workers sys |}
    /\ (forall x, x ∈ l ->
        bool_get (f (vars (gui sys))) x = bool_get target x)
    /\ (forall x, x ∉ l ->
        bool_get (f (vars (gui sys))) x = bool_get (vars (gui sys)) x)
    /\ (forall y, str_get (f (vars (gui sys))) y = str_get (vars (gui sys)) y).
Proof.
  revert sys. induction l as [| x0 l IH]; intros sys Hnodup Hfrom.
  - exists (fun vs => vs). rewrite with_vars_id.
    split; [by destruct sys |]. split; [| done].
    intros x Hx. by apply elem_of_nil in Hx.
  - apply NoDup_cons in Hnodup as [Hx0 Hnodup]. cbn [flat_map].
    rewrite run_app.
    assert (Hfirst : exists g,
      run (if Bool.eqb (bool_get from x0) (bool_get target x0)
           then [] else [Click_check x0]) sys
      = {| gui := with_vars g (gui sys); workers := workers sys |}
      /\ bool_get (g (vars (gui sys))) x0 = bool_get target x0
      /\ (forall x, x <> x0 ->
          bool_get (g (vars (gui sys))) x = bool_get (vars (gui sys)) x)
      /\ (forall y, str_get (g (vars (gui sys))) y = str_get (vars (gui sys)) y)).
    { pose proof (Hfrom x0 (list_elem_of_here _ _)) as H0.
      destruct (Bool.eqb (bool_get from x0) (bool_get target x0)) eqn:Heq.
      - exists (fun vs => vs). rewrite with_vars_id.
        split; [by destruct sys |]. apply Bool.eqb_prop in Heq.
        split; [congruence | done].
      - exists (fun vs => bool_set x0 (negb (bool_get vs x0)) vs).
        split; [reflexivity |]. cbn [bool_set bool_get str_get].
        split; [| split].
        + rewrite decide_True by done. rewrite H0.
          by destruct (bool_get from x0), (bool_get target x0).
        + intros x Hne. by rewrite decide_False.
        + done. }
    destruct Hfirst as (g & -> & Hg0 & Hgne & Hgstr).
    destruct (IH {| gui := with_vars g (gui sys); workers := workers sys |}
                Hnodup) as (f & -> & Hin & Hout & Hstr).
    { intros x Hx. cbn [gui vars with_vars]. rewrite Hgne.
      - apply Hfrom. by apply list_elem_of_further.
      - intros ->. contradiction. }
    cbn [gui workers vars with_vars] in *.
    exists (fun vs => f (g vs)). split; [reflexivity |]. split; [| split].
    + intros x Hx. apply elem_of_cons in Hx as [-> | Hx].
      * by rewrite (Hout _ Hx0).
      * by apply Hin.
    + intros x Hx. apply not_elem_of_cons in Hx as [Hne Hl].
      rewrite (Hout _ Hl). by apply Hgne.
    + intros y. by rewrite Hstr.
Qed.

Lemma all_str_vars_complete (x : StringVar) : x ∈ all_str_vars.
Proof. apply list_elem_of_In. destruct x; simpl; tauto. Qed.

Lemma all_bool_vars_complete (x : BooleanVar) : x ∈ all_bool_vars.
Proof. apply list_elem_of_In. destruct x; simpl; tauto. Qed.

Lemma all_bool_vars_nodup : NoDup all_bool_vars.
Proof. apply (bool_decide_unpack (NoDup all_bool_vars)). vm_compute. reflexivity. Qed.

(** From any state the user can bring the options of the form to any
    values, by edits that leave the rest of the state alone: the stored
    command, the running flag, the text widgets, the presets and the
    threads. *)
Lemma fill_form_sets (sys : system) (vs : variables) :
  exists f,
    run (fill_form (vars (gui sys)) vs) sys
    = {| gui := with_vars f (gui sys); workers := workers sys |}
    /\ same_options (f (vars (gui sys))) vs.
Proof.
  unfold fill_form. rewrite run_app.
  destruct (run_type_texts all_str_vars vs sys) as (f & -> & Hin & _ & Hbool).
  destruct (run_clicks all_bool_vars (vars (gui sys)) vs
              {| gui := with_vars f (gui sys); workers := workers sys |}
              all_bool_vars_nodup)
    as (g & -> & Hgin & _ & Hgstr).
  { intros x _. apply Hbool. }
  cbn [gui workers vars with_vars] in *.
  exists (fun vs0 => g (f vs0)). split; [reflexivity |].
  intros [x | x] Hopt; cbn [get]; f_equal.
  - rewrite Hgstr. apply Hin; [apply all_str_vars_complete | exact Hopt].
  - apply Hgin, all_bool_vars_complete.
Qed.

(** So every assignment of the options is the form of a reachable state,
    in whatever state the executions are. *)
Lemma form_reachable (sys : system) (vs : variables) :
  reachable sys ->
  exists sys',
    reachable sys'
    /\ same_options (vars (gui sys')) vs
    /\ workers sys' = workers sys
    /\ is_running (gui sys') = is_running (gui sys)
    /\ current_command (gui sys') = current_command (gui sys)
    /\ output_text (gui sys') = output_text (gui sys).
Proof.
  intros [trace ->].
  destruct (fill_form_sets (run trace initial_system) vs) as (f & Hrun & Hsame).
  exists (run (trace ++ fill_form (vars (gui (run trace initial_system))) vs)
            initial_system).
  split; [by eexists |]. rewrite run_app, Hrun. by repeat split.
Qed.

(** *** What an event does to the flag and the threads *)

Lemma step_classified (e : event) (sys : system) :
  step_kind sys (step e sys) \/ (e = Stop /\ stopped sys (step e sys)).
Proof.
  destruct (is_edit e) eqn:Hedit.
  { destruct (step_edit e sys Hedit) as [(f & g & h & Hf) Hw]. left.
    apply sk_keep; [by rewrite Hf | by rewrite Hf | exact Hw]. }
  destruct e as [x text | x | directory | filename | text | text
                 | | now p | now p | | | filename failure
                 | sel | answer | sel confirm | i now];
    try discriminate Hedit.
  - left. apply sk_keep; try reflexivity. intros _. apply compile_truthy.
  - left. cbn [step].
    destruct (execute_sqlmap now (gui sys)) as [s' effects] eqn:Hex.
    destruct (execute_sqlmap_inv _ _ _ _ Hex)
      as [(Hc & Hoff & -> & Hon & Hcmd) | (_ & -> & Hsp)].
    + apply (sk_start _ _ p); cbn [gui workers]; auto. by rewrite Hcmd.
    + apply sk_keep; cbn [gui workers]; auto. by rewrite Hsp, app_nil_r.
  - left. cbn [step].
    destruct (quick_scan now (gui sys)) as [s' effects] eqn:Hqs.
    destruct (quick_scan_inv _ _ _ _ Hqs)
      as [(Hoff & Hsp & Hon & Hc) | (Hr & Hsp & Hc)].
    + apply (sk_start _ _ p); cbn [gui workers]; auto. by rewrite Hsp.
    + apply sk_keep; cbn [gui workers]; auto. by rewrite Hsp, app_nil_r.
  - cbn [step]. unfold stop_execution.
    destruct (is_running (gui sys)) eqn:Hr.
    + by right.
    + left. apply sk_keep; cbn [gui workers fst]; auto.
  - left. apply sk_keep; try reflexivity. auto.
  - left. rewrite step_save_output. apply sk_keep; auto.
  - left. cbn [step].
    destruct (after_outcome_load_preset sel (gui sys)) as [Hr Hc].
    apply sk_keep; cbn [gui workers]; auto. by rewrite Hc.
  - left. cbn [step].
    destruct (save_preset_flags answer (gui sys)) as [Hr Hc].
    apply sk_keep; cbn [gui workers]; auto. by rewrite Hc.
  - left. cbn [step].
    destruct (after_outcome_delete_preset sel confirm (gui sys)) as [Hr Hc].
    apply sk_keep; cbn [gui workers]; auto. by rewrite Hc.
  - left. cbn [step]. destruct (workers sys !! i) as [w |] eqn:Hw.
    2: { apply sk_keep; auto. }
    destruct (worker_step_kind w)
      as [(error & -> & Hl) | [(-> & Hl) | [(w' & text & -> & Hl) | (w' & -> & Hl)]]].
    + by apply (sk_end _ _ i w).
    + by apply (sk_end _ _ i w).
    + by apply (sk_work _ _ i w w').
    + by apply (sk_work _ _ i w w').
Qed.

Lemma step_command_ready (e : event) (sys : system) :
  command_ready (gui sys) -> command_ready (gui (step e sys)).
Proof.
  unfold command_ready. intros H.
  destruct (step_classified e sys)
    as [[p _ _ Hc _ | Hr Hc _ | i w _ _ Hr _ | i w w' _ _ Hr Hc _]
       | (_ & _ & Hr & _)].
  - auto.
  - rewrite Hr. auto.
  - rewrite Hr. discriminate.
  - rewrite Hr, Hc. exact H.
  - rewrite Hr. discriminate.
Qed.

Lemma reachable_command_ready (sys : system) :
  reachable sys -> command_ready (gui sys).
Proof.
  intros [trace ->]. induction trace as [| e trace IH] using rev_ind.
  - discriminate.
  - rewrite run_snoc. by apply step_command_ready.
Qed.

(** [quick_scan] on a form with a target, while the running flag is set:
    the form is edited and the command compiled again before the request
    is made, and the request itself is turned down by [execute_sqlmap]:
    the warning is shown, no thread is started and the flag stays set. *)
Lemma quick_scan_while_running (now : string) (s : state) :
  truthy (str_get (vars s) url_var) = true ->
  is_running s = true ->
  quick_scan now s =
    (set_progress "⏳ Scanning..."
       (set_status "🟡 Quick scan initiated..." (quick_scan_form s)),
     [showwarning "Warning" "SQLMap is already running"]).
Proof.
  intros Hurl Hrun. unfold quick_scan. rewrite Hurl. cbn [negb].
  fold (quick_scan_form s). unfold execute_sqlmap.
  rewrite quick_scan_form_truthy, is_running_quick_scan_form, Hrun.
  reflexivity.
Qed.

(** While the running flag is set, an execution request only shows the
    warning [SQLMap is already running]: the handler returns every field
    as it was (the running flag, the output collected so far and the
    compiled command among them) and no thread, hence no process, is
    started. *)
Lemma execute_refused_while_flag_set (sys : system) (now : string)
    (p : process) :
  reachable sys ->
  is_running (gui sys) = true ->
  execute_sqlmap now (gui sys) =
    (gui sys, [showwarning "Warning" "SQLMap is already running"])
  /\ step (Execute now p) sys = sys.
Proof.
  intros Hreach Hrun.
  pose proof (reachable_command_ready sys Hreach Hrun) as Hcmd.
  assert (Hexec : execute_sqlmap now (gui sys) =
            (gui sys, [showwarning "Warning" "SQLMap is already running"])).
  { unfold execute_sqlmap. by rewrite Hcmd, Hrun. }
  split; [exact Hexec |].
  cbn [step]. rewrite Hexec. cbn [spawn flat_map]. rewrite app_nil_r.
  by destruct sys.
Qed.

Lemma scanning_system_reachable : reachable scanning_system.
Proof. by exists scan_trace. Qed.

Lemma stopped_system_reachable : reachable stopped_system.
Proof. apply reachable_step, scanning_system_reachable. Qed.

(** The form of [running_state] is the one the user reaches by entering
    the target, generating the command and executing it. *)
Lemma running_state_reachable (p : process) :
  gui (run [Type_text url_var "http://t/x?id=1"; Generate;
            Execute "2024-01-01 12:00:00" p] initial_system)
  = running_state.
Proof. vm_compute. reflexivity. Qed.

(** C3 (what the code does).  The user enters a target, generates the
    command and executes it; the process is launched and its first line
    is read; the user asks to stop.  The process is still being read, so
    the execution is Running, with the line it printed in the output
    widget; but the running flag is clear.  A second execution request is
    then not turned down: no warning is shown, the flag is set, the output
    collected so far is replaced by a new header (the stored command is
    kept), and a second thread is started whose process is read along with
    the first. *)
Theorem execute_accepted_while_running :
  reachable stopped_system
  /\ Running stopped_system
  /\ workers stopped_system = [Reading [Line ("b" +:+ nl)] 0]
  /\ is_running (gui stopped_system) = false
  /\ output_text (gui stopped_system)
     = started_header "2024-01-01 12:00:00"
         (current_command (gui stopped_system)) +:+ ("a" +:+ nl)
  /\ execute_sqlmap "2024-01-01 12:00:03" (gui stopped_system)
     <> (gui stopped_system,
         [showwarning "Warning" "SQLMap is already running"])
  /\ snd (execute_sqlmap "2024-01-01 12:00:03" (gui stopped_system))
     = [thread_start (current_command (gui stopped_system))]
  /\ is_running (fst (execute_sqlmap "2024-01-01 12:00:03"
                        (gui stopped_system))) = true
  /\ output_text (fst (execute_sqlmap "2024-01-01 12:00:03"
                         (gui stopped_system)))
     = started_header "2024-01-01 12:00:03"
         (current_command (gui stopped_system))
  /\ current_command (fst (execute_sqlmap "2024-01-01 12:00:03"
                             (gui stopped_system)))
     = current_command (gui stopped_system)
  /\ workers (step (Execute "2024-01-01 12:00:03" failing_process)
                stopped_system)
     = workers stopped_system ++ [Spawned failing_process]
  /\ active_sessions
       (run [Execute "2024-01-01 12:00:03" failing_process;
             Worker 1 "2024-01-01 12:00:04"] stopped_system) = 2.
Proof.
  split; [exact stopped_system_reachable |].
  split; [vm_compute; lia |].
  split; [reflexivity |]. split; [reflexivity |]. split; [reflexivity |].
  split.
  { intros H.
    pose proof (f_equal (fun r => is_running (fst r)) H) as Hflag.
    vm_compute in Hflag. discriminate Hflag. }
  do 5 (split; [vm_compute; reflexivity |]).
  vm_compute. reflexivity.
Qed.

(** *** The store of a reachable state *)

Lemma presets_status_bar (a b : string) (s : state) :
  presets (set_progress a (set_status b s)) = presets s.
Proof. reflexivity. Qed.

Lemma presets_quick_scan_form (s : state) :
  presets (quick_scan_form s) = presets s.
Proof. reflexivity. Qed.

Lemma execute_sqlmap_presets (now : string) (s s' : state)
    (effects : list effect) :
  execute_sqlmap now s = (s', effects) -> presets s' = presets s.
Proof.
  intros Hex. unfold execute_sqlmap in Hex.
  destruct (negb (truthy (current_command s))); [by injection Hex as <- _ |].
  destruct (is_running s); by injection Hex as <- _.
Qed.

Lemma quick_scan_presets (now : string) (s s' : state)
    (effects : list effect) :
  quick_scan now s = (s', effects) -> presets s' = presets s.
Proof.
  unfold quick_scan.
  destruct (negb (truthy (str_get (vars s) url_var))); [by intros [= <- _] |].
  fold (quick_scan_form s).
  destruct (execute_sqlmap now (quick_scan_form s)) as [s1 effects1] eqn:Hex.
  intros [= <- _]. rewrite presets_status_bar.
  rewrite (execute_sqlmap_presets _ _ _ _ Hex).
  apply presets_quick_scan_form.
Qed.

Lemma load_preset_presets (sel : option nat) (s : state) :
  presets (after_outcome (load_preset sel s) s) = presets s.
Proof.
  unfold load_preset. destruct sel as [index |]; [| done]. cbv zeta.
  destruct (presets s !! listbox_get s index) as [p |]; [| done].
  by destruct (apply_preset p (vars s)).
Qed.

Lemma worker_presets (i : nat) (now : string) (sys : system) :
  presets (gui (step (Worker i now) sys)) = presets (gui sys).
Proof.
  cbn [step]. destruct (workers sys !! i) as [w |]; [| done].
  destruct (worker_step w) as [w' [[line | | error] |]]; done.
Qed.

Lemma step_presets (e : event) (sys : system) :
  presets (gui (step e sys)) = presets (gui sys)
  \/ presets (gui (step e sys)) = list_to_map builtin_presets.
Proof.
  destruct (is_edit e) eqn:Hedit.
  { destruct (step_edit e sys Hedit) as [(f & g & h & Hf) _]. left. by rewrite Hf. }
  destruct e as [x text | x | directory | filename | text | text
                 | | now p | now p | | | filename failure
                 | sel | answer | sel confirm | i now];
    try discriminate Hedit.
  - by left.
  - left. cbn [step].
    destruct (execute_sqlmap now (gui sys)) as [s' effects] eqn:Hex.
    exact (execute_sqlmap_presets _ _ _ _ Hex).
  - left. cbn [step].
    destruct (quick_scan now (gui sys)) as [s' effects] eqn:Hqs.
    exact (quick_scan_presets _ _ _ _ Hqs).
  - left. cbn [step gui]. unfold stop_execution.
    by destruct (is_running (gui sys)).
  - by left.
  - by left.
  - left. apply load_preset_presets.
  - cbn [step gui]. unfold save_preset.
    destruct (save_preset_assign answer (gui sys)) as [[k s1] |];
      [by right | by left].
  - cbn [step gui]. unfold delete_preset.
    destruct sel as [index |]; [| by left].
    destruct confirm; [| by left]. cbv zeta.
    destruct (delete_preset_del (listbox_get (gui sys) index) (gui sys));
      [by right | by left].
  - left. apply worker_presets.
Qed.

(** In every reachable state the store is the literal of
    [load_presets]. *)
Lemma reachable_presets (sys : system) :
  reachable sys -> presets (gui sys) = list_to_map builtin_presets.
Proof.
  intros [trace ->]. induction trace as [| e trace IH] using rev_ind.
  - reflexivity.
  - rewrite run_snoc.
    destruct (step_presets e (run trace initial_system)) as [-> | ->]; done.
Qed.

(** *** Sessions at a time *)

Lemma live_workers_app (l1 l2 : list worker) :
  length (List.filter is_live (l1 ++ l2)) =
  length (List.filter is_live l1) + length (List.filter is_live l2).
Proof. by rewrite List.filter_app, length_app. Qed.

Lemma live_workers_insert (l : list worker) (i : nat) (w w' : worker) :
  l !! i = Some w ->
  length (List.filter is_live (<[i := w']> l)) + (if is_live w then 1 else 0)
  = length (List.filter is_live l) + (if is_live w' then 1 else 0).
Proof.
  revert i. induction l as [| x l IH]; intros [| i] Hw; try discriminate.
  - injection Hw as ->. simpl.
    destruct (is_live w), (is_live w'); simpl; lia.
  - simpl in Hw. specialize (IH i Hw). simpl.
    destruct (is_live x); simpl; lia.
Qed.

Lemma active_le_live (sys : system) : active_sessions sys <= live_workers sys.
Proof.
  unfold active_sessions, live_workers.
  induction (workers sys) as [| w l IH]; [done |].
  destruct w; simpl; lia.
Qed.

Lemma step_exclusive (e : event) (sys : system) :
  e <> Stop -> exclusive sys -> exclusive (step e sys).
Proof.
  unfold exclusive, live_workers. intros He H.
  destruct (step_classified e sys) as [Hk | [-> _]]; [| done].
  destruct Hk as [p Hoff Hon _ Hw | Hr _ Hw | i w Hi Hl Hr Hw
                  | i w w' Hi Hl Hr _ Hw]; rewrite Hw.
  - rewrite Hon. rewrite Hoff in H.
    rewrite live_workers_app. simpl. lia.
  - by rewrite Hr.
  - rewrite Hr. pose proof (live_workers_insert _ _ _ Ended Hi) as Hins.
    rewrite Hl in Hins. simpl in Hins.
    destruct (is_running (gui sys)); lia.
  - rewrite Hr. pose proof (live_workers_insert _ _ _ w' Hi) as Hins.
    rewrite Hl in Hins. destruct (is_live w); lia.
Qed.

Lemma initial_exclusive : exclusive initial_system.
Proof. unfold exclusive, live_workers. simpl. lia. Qed.

(** As long as no stop request is made, at most one thread is alive, and
    so at most one external process is being read. *)
Lemma sessions_exclusive_without_stop (trace : list event) :
  ~ In Stop trace ->
  active_sessions (run trace initial_system) <= 1.
Proof.
  intros Hstop.
  assert (H : exclusive (run trace initial_system)).
  { induction trace as [| e trace IH] using rev_ind.
    - apply initial_exclusive.
    - rewrite run_snoc. apply step_exclusive.
      + intros ->. apply Hstop. apply in_or_app. right. by left.
      + apply IH. intros Hin. apply Hstop. apply in_or_app. by left. }
  pose proof (active_le_live (run trace initial_system)) as Hle.
  unfold exclusive in H.
  destruct (is_running (gui (run trace initial_system))); lia.
Qed.

Lemma stop_execution_running (s : state) :
  is_running s = true ->
  is_running (fst (stop_execution s)) = false
  /\ current_command (fst (stop_execution s)) = current_command s.
Proof. intros H. unfold stop_execution. rewrite H. split; reflexivity. Qed.

(** A stop request on a system whose flag is set, followed by an
    execution request, starts a second thread although the threads of the first execution
    are as they were. *)
Lemma stop_reopens_execution (sys : system) (now : string) (p : process) :
  reachable sys ->
  is_running (gui sys) = true ->
  workers (step (Execute now p) (step Stop sys)) = workers sys ++ [Spawned p].
Proof.
  intros Hreach Hrun.
  pose proof (reachable_command_ready sys Hreach Hrun) as Hcmd.
  destruct (stop_execution_running _ Hrun) as [Hoff Hc].
  cbn [step workers gui].
  destruct (execute_sqlmap now (fst (stop_execution (gui sys))))
    as [s' effects] eqn:Hex.
  cbn [workers].
  destruct (execute_sqlmap_inv _ _ _ _ Hex)
    as [(_ & _ & -> & _ & _) | ([Hno | Hon] & _ & _)].
  - reflexivity.
  - rewrite Hc, Hcmd in Hno. discriminate.
  - rewrite Hoff in Hon. discriminate.
Qed.

(** C2 (what the code does).  After a command was generated, an
    execution started and its process launched, a stop request clears
    the running flag and leaves the process alone; the next execution
    request is accepted and its process is launched too: two external
    processes launched by the supervisor are being read at once. *)
Theorem stop_then_execute_two_sessions :
  reachable (run stop_trace initial_system)
  /\ active_sessions (run (take 3 stop_trace) initial_system) = 1
  /\ is_running (gui (run (take 3 stop_trace) initial_system)) = true
  /\ active_sessions (run (take 4 stop_trace) initial_system) = 1
  /\ is_running (gui (run (take 4 stop_trace) initial_system)) = false
  /\ active_sessions (run stop_trace initial_system) = 2.
Proof.
  split; [by exists stop_trace |]. repeat split; reflexivity.
Qed.

End SystemFacts.

(* ================================================================= *)
(** ** The preset store *)

Module PresetsFacts.
Import Py Options Gui Compiler Presets System Spec OptionsFacts SystemFacts.

Lemma get_str_set (y : StringVar) (text : string) (vs : variables) (x : var) :
  get (str_set y text vs) x = if decide (x = SV y) then VStr text else get vs x.
Proof.
  destruct x as [x | x]; cbn [get str_set str_get bool_get];
    repeat case_decide; congruence.
Qed.

Lemma get_bool_set (y : BooleanVar) (b : bool) (vs : variables) (x : var) :
  get (bool_set y b vs) x = if decide (x = BV y) then VBool b else get vs x.
Proof.
  destruct x as [x | x]; cbn [get bool_set str_get bool_get];
    repeat case_decide; congruence.
Qed.

(** One entry of a preset: the variable named by the key takes the
    value, every other variable keeps its own. *)
Lemma apply_entry_get (k : string) (v : value) (vs : variables) :
  (forall y, key y = k -> kinds_agree y v) ->
  exists vs', apply_entry k v vs = Some vs'
    /\ forall x, get vs' x = if decide (key x = k) then v else get vs x.
Proof.
  intros Hkind. unfold apply_entry.
  destruct (find_var k) as [y |] eqn:Hfind.
  - pose proof (find_var_Some _ _ Hfind) as Hk. specialize (Hkind y Hk).
    destruct y as [y | y], v as [text | b]; try contradiction.
    + eexists. split; [done |]. intros x. rewrite get_str_set.
      destruct (decide (x = SV y)) as [-> | Hne].
      * by rewrite decide_True.
      * rewrite decide_False; [done |]. intros Hx. apply Hne, key_inj. congruence.
    + eexists. split; [done |]. intros x. rewrite get_bool_set.
      destruct (decide (x = BV y)) as [-> | Hne].
      * by rewrite decide_True.
      * rewrite decide_False; [done |]. intros Hx. apply Hne, key_inj. congruence.
  - exists vs. split; [by destruct v |]. intros x.
    rewrite decide_False; [done |]. intros Hx.
    rewrite <- Hx, find_var_key in Hfind. discriminate.
Qed.

(** The loop of [load_preset] over a well-kinded preset ends normally;
    a variable whose key is in the preset holds the preset's value
    afterwards and every other variable holds what it held. *)
Lemma apply_preset_get (p : preset) (vs : variables) :
  well_kinded p ->
  exists vs', apply_preset p vs = Some vs'
    /\ forall x, get vs' x = default (get vs x) (p !! key x).
Proof.
  unfold apply_preset.
  apply (map_fold_weak_ind
           (fun r (m : preset) =>
              well_kinded m ->
              exists vs', r = Some vs'
                /\ forall x, get vs' x = default (get vs x) (m !! key x))).
  - intros _. exists vs. split; [done |]. intros x. by rewrite lookup_empty.
  - intros k v m r Hfresh IH Hwk.
    destruct IH as (vs1 & -> & Hget).
    { intros x w Hx. apply Hwk. rewrite lookup_insert_ne; [done |].
      intros ->. congruence. }
    destruct (apply_entry_get k v vs1) as (vs2 & Happ & Hget2).
    { intros y <-. apply Hwk. by rewrite lookup_insert_eq. }
    exists vs2. split; [exact Happ |]. intros x. rewrite Hget2.
    destruct (decide (key x = k)) as [<- | Hne].
    + by rewrite lookup_insert_eq.
    + rewrite lookup_insert_ne by done. apply Hget.
Qed.

(** C9.  Loading a preset ends normally and, for every scan option: if
    the option's key is in the preset the option now has the preset's
    value, and if it is not the option has the value it had. *)
Theorem load_preset_partial_merge (s : state) (index : nat) (p : preset) :
  presets s !! listbox_get s index = Some p ->
  well_kinded p ->
  exists s' effects,
    load_preset (Some index) s = Ok s' effects
    /\ forall x, is_option x = true ->
         get (vars s') x = default (get (vars s) x) (p !! key x).
Proof.
  intros Hp Hwk. unfold load_preset. cbv zeta. rewrite Hp.
  destruct (apply_preset_get p (vars s) Hwk) as (vs' & -> & Hget).
  eexists _, _. split; [reflexivity |].
  intros x Hopt. rewrite <- Hget.
  destruct x as [[] | []]; try discriminate Hopt; reflexivity.
Qed.

Lemma quick_scan_preset_well_kinded : well_kinded quick_scan_preset.
Proof.
  intros x v H.
  destruct x as [[] | []]; vm_compute in H; try discriminate H;
    injection H as <-; exact I.
Qed.

(** Every preset of the literal of [load_presets] is well-kinded. *)
Lemma builtin_presets_well_kinded (name : string) (p : preset) :
  In (name, p) builtin_presets -> well_kinded p.
Proof.
  intros Hin x v H. unfold builtin_presets in Hin. simpl in Hin.
  repeat (destruct Hin as [[= <- <-] | Hin];
          [destruct x as [[] | []]; vm_compute in H; try discriminate H;
           injection H as <-; exact I |]).
  destruct Hin.
Qed.

(** Every preset in the store of a reachable state is well-kinded. *)
Lemma reachable_preset_well_kinded (sys : system) (name : string) (p : preset) :
  reachable sys ->
  presets (gui sys) !! name = Some p ->
  well_kinded p.
Proof.
  intros Hreach Hp. rewrite (reachable_presets sys Hreach) in Hp.
  apply elem_of_list_to_map_2 in Hp. apply list_elem_of_In in Hp.
  by apply (builtin_presets_well_kinded name).
Qed.

Lemma load_preset_partial_merge_witness :
  presets initial_state !! listbox_get initial_state 0 = Some quick_scan_preset
  /\ well_kinded quick_scan_preset
  /\ exists s' effects,
       load_preset (Some 0) initial_state = Ok s' effects
       /\ forall x, is_option x = true ->
            get (vars s') x =
            default (get (vars initial_state) x) (quick_scan_preset !! key x).
Proof.
  assert (H : presets initial_state !! listbox_get initial_state 0
              = Some quick_scan_preset) by reflexivity.
  split; [exact H |]. split; [exact quick_scan_preset_well_kinded |].
  exact (load_preset_partial_merge initial_state 0 quick_scan_preset H
           quick_scan_preset_well_kinded).
Defined.

(** What the loop of [save_preset] over the attributes collects. *)
Lemma collect_fold_lookup (vs : variables) (l : list var) (acc : preset) (x : var) :
  NoDup l ->
  foldl (fun acc x =>
           if value_truthy (get vs x) then <[key x := get vs x]> acc else acc)
        acc l !! key x
  = if bool_decide (x ∈ l) && value_truthy (get vs x)
    then Some (get vs x)
    else acc !! key x.
Proof.
  revert acc. induction l as [| a l IH]; intros acc Hnd.
  - done.
  - apply NoDup_cons in Hnd as [Ha Hnd]. cbn [foldl]. rewrite IH by done.
    destruct (decide (x = a)) as [-> | Hne].
    + rewrite (bool_decide_eq_false_2 (a ∈ l)) by done.
      rewrite (bool_decide_eq_true_2 (a ∈ a :: l)) by left.
      cbn [andb]. destruct (value_truthy (get vs a)); [| done].
      by rewrite lookup_insert_eq.
    + assert (Hkey : key a <> key x) by (intros Hk; apply Hne; by apply key_inj).
      destruct (decide (x ∈ l)) as [Hin | Hnin].
      * rewrite (bool_decide_eq_true_2 (x ∈ l)) by done.
        rewrite (bool_decide_eq_true_2 (x ∈ a :: l)) by (by right).
        cbn [andb]. destruct (value_truthy (get vs x)); [done |].
        destruct (value_truthy (get vs a)); [| done].
        by rewrite lookup_insert_ne.
      * rewrite (bool_decide_eq_false_2 (x ∈ l)) by done.
        rewrite (bool_decide_eq_false_2 (x ∈ a :: l))
          by (intros [-> | ?]%elem_of_cons; done).
        cbn [andb]. destruct (value_truthy (get vs a)); [| done].
        by rewrite lookup_insert_ne.
Qed.

Lemma all_vars_complete (x : var) : x ∈ all_vars.
Proof. destruct x as [[] | []]; vm_compute; set_solver. Qed.

Lemma all_vars_NoDup : NoDup all_vars.
Proof. apply (bool_decide_unpack (NoDup all_vars)). vm_compute. exact I. Qed.

(** The collected preset holds a variable's value under its key exactly
    when the value is truthy. *)
Lemma collect_lookup (vs : variables) (x : var) :
  collect vs !! key x
  = if value_truthy (get vs x) then Some (get vs x) else None.
Proof.
  unfold collect. rewrite collect_fold_lookup by apply all_vars_NoDup.
  rewrite bool_decide_eq_true_2 by apply all_vars_complete.
  cbn [andb]. by rewrite lookup_empty.
Qed.

(** What [save_preset] collects is well-kinded. *)
Lemma collect_well_kinded (vs : variables) : well_kinded (collect vs).
Proof.
  intros x v. rewrite collect_lookup.
  destruct (value_truthy (get vs x)); [| discriminate].
  intros [= <-]. by destruct x.
Qed.

(** *** The key of a saved preset *)

Lemma all_ascii_no_ord_gt_127 (name : string) :
  all_ascii name -> any_ord_gt_127 name = false.
Proof.
  unfold all_ascii. induction name as [| c name IH]; intros H; [done |].
  cbn [any_ord_gt_127]. apply orb_false_intro.
  - unfold ord_gt_127. apply Nat.ltb_ge. apply H. by left.
  - apply IH. intros c' Hc'. apply H. by right.
Qed.

Lemma has_non_ascii_ord_gt_127 (name : string) :
  has_non_ascii name -> any_ord_gt_127 name = true.
Proof.
  intros (c & Hin & Hc). induction name as [| c' name IH]; [destruct Hin |].
  cbn [any_ord_gt_127]. apply orb_true_intro.
  destruct Hin as [-> | Hin].
  - left. unfold ord_gt_127. by apply Nat.ltb_lt.
  - right. by apply IH.
Qed.

Lemma save_preset_assign_some (name : string) (s : state) :
  name <> EmptyString ->
  stored_under (Some name) s (save_preset_name name).
Proof.
  intros Hne. unfold stored_under, save_preset_assign.
  destruct name as [| c name]; [done |]. cbn [truthy negb].
  eexists. split; reflexivity.
Qed.

Lemma length_append (a b : string) :
  String.length (a +:+ b) = String.length a + String.length b.
Proof.
  induction a as [| c a IH]; [reflexivity |].
  change (String c a +:+ b) with (String c (a +:+ b)). simpl. by rewrite IH.
Qed.

Lemma gear_prefix_changes_name (name : string) : "⚙️ " +:+ name <> name.
Proof.
  intros H. apply (f_equal String.length) in H. rewrite length_append in H.
  simpl in H. lia.
Qed.

(** C10 (amended).  For every name that is not empty: the assignment of
    [save_preset] files the collected settings under the gear prefix
    followed by the name, a key other than the name, when all characters of
    the name have code points of at most 127, and under the name itself
    when one of them has a code point above 127. *)
Theorem save_preset_files_under_key (name : string) (s : state) :
  name <> EmptyString ->
  (all_ascii name ->
     stored_under (Some name) s ("⚙️ " +:+ name) /\ "⚙️ " +:+ name <> name)
  /\ (has_non_ascii name -> stored_under (Some name) s name).
Proof.
  intros Hne. pose proof (save_preset_assign_some name s Hne) as H.
  unfold save_preset_name in H. split; intros Hname.
  - rewrite (all_ascii_no_ord_gt_127 name Hname) in H.
    split; [exact H | apply gear_prefix_changes_name].
  - by rewrite (has_non_ascii_ord_gt_127 name Hname) in H.
Qed.

Lemma save_preset_files_under_key_witness :
  "scan" <> EmptyString
  /\ (all_ascii "scan" ->
        stored_under (Some "scan") example_form "⚙️ scan"
        /\ "⚙️ scan" <> "scan")
  /\ (has_non_ascii "scan" -> stored_under (Some "scan") example_form "scan").
Proof.
  assert (H : "scan" <> EmptyString) by discriminate.
  split; [exact H |].
  exact (save_preset_files_under_key "scan" example_form H).
Defined.

(** C10 as stated fails for the empty name: all of its characters have
    code points of at most 127, and [save_preset] returns before the
    assignment, so nothing is filed under the gear prefix. *)
Lemma save_preset_empty_name_not_stored :
  all_ascii EmptyString
  /\ ~ stored_under (Some EmptyString) example_form ("⚙️ " +:+ EmptyString)
  /\ save_preset (Some EmptyString) example_form = (example_form, []).
Proof.
  split; [intros c [] |]. split; [| reflexivity].
  intros (s1 & Hassign & _). discriminate Hassign.
Qed.

(** *** Save, delete and look up *)

(** After [save_preset] the store is the literal of [load_presets], or
    the store as it was when the dialog gave no name. *)
Lemma save_preset_resets_store (answer : option string) (s : state) :
  presets (fst (save_preset answer s)) = list_to_map builtin_presets
  \/ fst (save_preset answer s) = s.
Proof.
  unfold save_preset. destruct (save_preset_assign answer s) as [[k s1] |].
  - by left.
  - by right.
Qed.

(** After a confirmed [delete_preset] that ended normally the store is
    the literal of [load_presets] again. *)
Lemma delete_preset_resets_store (index : nat) (s s' : state)
    (effects : list effect) :
  delete_preset (Some index) true s = Ok s' effects ->
  presets s' = list_to_map builtin_presets.
Proof.
  unfold delete_preset. cbv zeta.
  destruct (delete_preset_del (listbox_get s index) s); [| discriminate].
  by intros [= <- _].
Qed.

(** C8 (what the code does).  With risk 3 and the enumeration of
    databases set, the settings are saved under the name X, and under a
    name with an emoji of its own: the assignment files them, and when
    [save_preset] returns neither the name nor the name with the gear
    prefix is in the store.  The first row of the listbox is deleted and
    confirmed: when [delete_preset] returns the name is in the store. *)
Theorem saved_preset_lost_deleted_preset_back :
  stored_under (Some "X") example_form "⚙️ X"
  /\ get_preset "⚙️ X" (fst (save_preset (Some "X") example_form)) = None
  /\ get_preset "X" (fst (save_preset (Some "X") example_form)) = None
  /\ stored_under (Some "🧪 X") example_form "🧪 X"
  /\ get_preset "🧪 X" (fst (save_preset (Some "🧪 X") example_form)) = None
  /\ listbox_get initial_state 0 = "🚀 Quick Scan"
  /\ (exists s1, delete_preset_del "🚀 Quick Scan" initial_state = Some s1
                 /\ get_preset "🚀 Quick Scan" s1 = None)
  /\ exists s' effects,
       delete_preset (Some 0) true initial_state = Ok s' effects
       /\ get_preset "🚀 Quick Scan" s' = Some quick_scan_preset.
Proof.
  split; [eexists; split; reflexivity |].
  split; [reflexivity |]. split; [reflexivity |].
  split; [eexists; split; reflexivity |].
  split; [reflexivity |]. split; [reflexivity |].
  split; [eexists; split; reflexivity |].
  eexists _, _. split; reflexivity.
Qed.

End PresetsFacts.

(* ================================================================= *)
(** ** More on the command compiler *)

Module CompilerMore.
Import Py Options Gui Compiler Presets Spec Properties CompilerFacts.

Lemma filter_technique_option_none (f : string -> bool) (vs : variables) :
  f ("--technique=" +:+ join EmptyString (techniques vs)) = false ->
  List.filter f (technique_option vs) = [].
Proof.
  intros H. unfold technique_option. destruct (techniques vs); [done |].
  cbn [List.filter]. by rewrite H.
Qed.

Lemma truthy_true_ne (v : string) : truthy v = true <-> v <> EmptyString.
Proof. destruct v; simpl; split; congruence. Qed.

Lemma str_ne_true_ne (v d : string) : str_ne v d = true <-> v <> d.
Proof. unfold str_ne. rewrite negb_true_iff. apply String.eqb_neq. Qed.

(** The tokens of a technique sub-option among those of the technique
    part. *)
Lemma technique_option_count (vs : variables) (b : BooleanVar) (letter : ascii) :
  bool_flag b = inr letter ->
  length (List.filter (token_for (BV b)) (technique_option vs))
  = if bool_get vs b then 1 else 0.
Proof.
  intros Hflag. unfold technique_option, techniques.
  destruct b; try discriminate Hflag;
    destruct (bool_get vs tech_boolean_var), (bool_get vs tech_error_var),
      (bool_get vs tech_union_var), (bool_get vs tech_stacked_var),
      (bool_get vs tech_time_var), (bool_get vs tech_inline_var);
    reflexivity.
Qed.

Ltac drop_other_parts :=
  unfold command_parts;
  repeat rewrite List.filter_app;
  repeat match goal with
         | |- context [List.filter ?f (text_option ?flag ?v)] =>
             rewrite (filter_text_option f flag v) by reflexivity
         | |- context [List.filter ?f (valued_option ?flag ?d ?v)] =>
             rewrite (filter_valued_option f flag d v) by reflexivity
         | |- context [List.filter ?f (append_if ?c ?t)] =>
             rewrite (filter_append_if f c t) by reflexivity
         | |- context [List.filter ?f (technique_option ?vs)] =>
             rewrite (filter_technique_option_none f vs) by reflexivity
         end;
  cbn [List.filter app length].

Lemma text_option_count (f : string -> bool) (flag v : string) :
  f (flag +:+ dq +:+ v +:+ dq) = true ->
  length (List.filter f (text_option flag v)) = if truthy v then 1 else 0.
Proof.
  intros H. unfold text_option, append_if. destruct (truthy v); [| done].
  simpl. by rewrite H.
Qed.

Lemma valued_option_count (f : string -> bool) (flag d v : string) :
  f (flag +:+ v) = true ->
  length (List.filter f (valued_option flag d v)) = if str_ne v d then 1 else 0.
Proof.
  intros H. unfold valued_option, append_if. destruct (str_ne v d); [| done].
  simpl. by rewrite H.
Qed.

Lemma append_if_count (f : string -> bool) (cond : bool) (token : string) :
  f token = true ->
  length (List.filter f (append_if cond token)) = if cond then 1 else 0.
Proof.
  intros H. unfold append_if. destruct cond; [| done]. simpl. by rewrite H.
Qed.

(** The number of tokens of an option in the command, by the condition of
    the option's [if] in the source. *)
Lemma option_tokens_by_condition (vs : variables) (x : var) :
  is_option x = true ->
  length (List.filter (token_for x) (command_parts vs))
  = if match x with
       | SV s => str_ne (str_get vs s) (str_initial s)
       | BV b => bool_get vs b
       end
    then 1 else 0.
Proof.
  intros Hopt.
  destruct x as [[] | []]; try discriminate Hopt; cbn [str_initial].
  all: drop_other_parts.
  all: rewrite ?app_nil_r, ?length_app;
    match goal with
    | |- context [token_for ?x "sqlmap"] =>
        change (token_for x "sqlmap") with false
    end; cbn [length Nat.add].
  all: first
    [ rewrite text_option_count by reflexivity;
      match goal with
      | |- context [truthy ?v] => destruct v; reflexivity
      end
    | rewrite valued_option_count by reflexivity; reflexivity
    | rewrite append_if_count by reflexivity; reflexivity
    | erewrite technique_option_count; reflexivity ].
Qed.

(** X1.  Every scan option has exactly one token in the command when its
    variable differs from the value it was created with, and none when it
    holds that value (for a technique the token is the technique token
    and it carries the technique's letter). *)
Theorem option_token_count (vs : variables) (x : var) :
  is_option x = true ->
  length (List.filter (token_for x) (command_parts vs))
  = if decide (get vs x = get initial_variables x) then 0 else 1.
Proof.
  intros Hopt. rewrite (option_tokens_by_condition vs x Hopt).
  destruct x as [x | x]; cbn [get initial_variables str_get bool_get].
  - destruct (decide (VStr (str_get vs x) = VStr (str_initial x))) as [Heq | Hne].
    + injection Heq as ->. unfold str_ne. by rewrite String.eqb_refl.
    + rewrite (proj2 (str_ne_true_ne _ _)); [done | congruence].
  - destruct (bool_get vs x); by case_decide.
Qed.

Lemma option_token_count_witness :
  is_option (SV risk_var) = true
  /\ length (List.filter (token_for (SV risk_var)) (command_parts example_snapshot))
     = if decide (get example_snapshot (SV risk_var)
                  = get initial_variables (SV risk_var))
       then 0 else 1.
Proof.
  split; [reflexivity |].
  apply (option_token_count example_snapshot (SV risk_var)). reflexivity.
Defined.

Lemma compile_bare_parts (vs : variables) :
  compile vs = "sqlmap" -> command_parts vs = ["sqlmap"].
Proof.
  assert (H : exists rest, command_parts vs = "sqlmap" :: rest)
    by (eexists; reflexivity).
  destruct H as [rest Hparts]. unfold compile, join. rewrite Hparts.
  destruct rest as [| t rest]; [done |].
  intros Hc. apply (f_equal String.length) in Hc.
  cbn [String.concat] in Hc.
  change ("sqlmap" +:+ " " +:+ ?x) with (String "s" (String "q" (String "l"
    (String "m" (String "a" (String "p" (String " " x))))))) in Hc.
  simpl in Hc. lia.
Qed.

(** X2.  The compiled command is the bare program name exactly when every
    scan option holds the value it was created with. *)
Theorem bare_command_iff_defaults (vs : variables) :
  compile vs = "sqlmap" <-> (forall x, is_option x = true -> at_default vs x).
Proof.
  split.
  - intros Hc x Hopt. unfold at_default.
    destruct (decide (get vs x = get initial_variables x)) as [Heq | Hne]; [done |].
    exfalso.
    destruct (non_default_option_has_token vs x Hopt Hne) as (token & Hin & Htok).
    rewrite (compile_bare_parts vs Hc) in Hin.
    destruct Hin as [<- | []].
    destruct x as [[] | []]; discriminate Htok.
  - intros H. unfold compile.
    by rewrite (command_parts_same_options vs initial_variables H).
Qed.

End CompilerMore.

(* ================================================================= *)
(** ** More on the execution supervisor *)

Module SupervisorMore.
Import Py Options Gui Compiler Supervisor Presets System Spec Properties.
Import CompilerFacts SupervisorFacts SystemFacts.

Lemma append_nil_r (a : string) : a +:+ EmptyString = a.
Proof.
  induction a as [| c a IH]; [reflexivity |].
  change (String c a +:+ EmptyString) with (String c (a +:+ EmptyString)).
  by rewrite IH.
Qed.

Lemma append_assoc (a b c : string) : (a +:+ b) +:+ c = a +:+ (b +:+ c).
Proof.
  induction a as [| x a IH]; [reflexivity |].
  change (String x ((a +:+ b) +:+ c) = String x (a +:+ (b +:+ c))).
  by rewrite IH.
Qed.

Lemma run_callbacks_update (now line : string) (rest : list callback) (s : state) :
  run_callbacks now (cb_update_output line :: rest) s
  = run_callbacks now rest (_update_output line s).
Proof.
  cbn [run_callbacks run_callback].
  by destruct (run_callbacks now rest (_update_output line s)).
Qed.

Lemma run_callbacks_last (now : string) (cb : callback) (s : state) :
  run_callbacks now [cb] s
  = (fst (run_callback now cb s), snd (run_callback now cb s)).
Proof.
  cbn [run_callbacks]. destruct (run_callback now cb s) as [s1 e1].
  cbn [fst snd]. by rewrite app_nil_r.
Qed.

(** The callbacks of a run: one per line that was read, then one that
    ends the run. *)
Lemma read_loop_shape (reads : list readline_result) (rc : Z) :
  exists lines rest term,
    reads = map Line lines ++ rest
    /\ Forall (fun l => truthy l = true) lines
    /\ run_ending rest term
    /\ read_loop reads rc = map cb_update_output lines ++ [term]
    /\ is_terminal term = true.
Proof.
  induction reads as [| [text | error] reads IH]; cbn [read_loop].
  - by exists [], [], cb_execution_finished.
  - destruct (truthy text) eqn:Ht.
    + destruct IH as (lines & rest & term & -> & Hlines & Hend & -> & Hterm).
      exists (text :: lines), rest, term.
      split; [reflexivity |]. split; [by constructor |]. by split.
    + by exists [], (Line text :: reads), cb_execution_finished.
  - by exists [], (Raises error :: reads), (cb_execution_error error).
Qed.

Lemma run_sqlmap_shape (p : process) :
  exists lines term,
    forwarded p lines term
    /\ _run_sqlmap p = map cb_update_output lines ++ [term]
    /\ is_terminal term = true.
Proof.
  unfold _run_sqlmap, forwarded. destruct (popen_error p) as [error |].
  - by exists [], (cb_execution_error error).
  - destruct (read_loop_shape (stdout p) (returncode p))
      as (lines & rest & term & Hout & Hlines & Hend & Hloop & Hterm).
    exists lines, term. split; [| by split].
    split; [exact Hlines |]. by exists rest.
Qed.

(** The lines read and the ending are determined by the stream. *)
Lemma run_ending_unique (lines lines' : list string)
    (rest rest' : list readline_result) (term term' : callback) :
  map Line lines ++ rest = map Line lines' ++ rest' ->
  Forall (fun l => truthy l = true) lines ->
  Forall (fun l => truthy l = true) lines' ->
  run_ending rest term -> run_ending rest' term' ->
  lines = lines' /\ term = term'.
Proof.
  revert lines'. induction lines as [| l lines IH]; intros [| l' lines'];
    cbn [map app]; intros Heq Hl Hl' Hend Hend'.
  - subst rest'. split; [reflexivity |].
    destruct rest as [| [text | error] rest]; cbn [run_ending] in *.
    + congruence.
    + destruct Hend as [_ ->]. by destruct Hend' as [_ ->].
    + congruence.
  - subst rest. cbn [run_ending] in Hend. destruct Hend as [Hfalse _].
    apply Forall_cons in Hl' as [Htrue _]. congruence.
  - subst rest'. cbn [run_ending] in Hend'. destruct Hend' as [Hfalse _].
    apply Forall_cons in Hl as [Htrue _]. congruence.
  - injection Heq as -> Heq.
    apply Forall_cons in Hl as [_ Hl]. apply Forall_cons in Hl' as [_ Hl'].
    destruct (IH lines' Heq Hl Hl' Hend Hend') as [-> ->]. by split.
Qed.

Lemma forwarded_unique (p : process) (lines lines' : list string)
    (term term' : callback) :
  forwarded p lines term -> forwarded p lines' term' ->
  lines = lines' /\ term = term'.
Proof.
  unfold forwarded. destruct (popen_error p) as [error |].
  - intros [-> ->] [-> ->]. by split.
  - intros (Hl & rest & Hout & Hend) (Hl' & rest' & Hout' & Hend').
    rewrite Hout in Hout'.
    exact (run_ending_unique _ _ _ _ _ _ Hout' Hl Hl' Hend Hend').
Qed.

Lemma terminal_callback_clears (now : string) (term : callback) (s : state) :
  is_terminal term = true ->
  is_running (fst (run_callback now term s)) = false
  /\ length (snd (run_callback now term s)) = 1.
Proof. destruct term; [discriminate | done | done]. Qed.

Lemma run_lines_then (now : string) (lines : list string) (term : callback)
    (s : state) :
  exists s1,
    run_callbacks now (map cb_update_output lines ++ [term]) s
    = (fst (run_callback now term s1), snd (run_callback now term s1))
    /\ output_text s1 = output_text s +:+ lines_text lines
    /\ is_running s1 = is_running s
    /\ current_command s1 = current_command s.
Proof.
  revert s. induction lines as [| l lines IH]; intros s.
  - exists s. split; [apply run_callbacks_last |].
    cbn [lines_text fold_right]. by rewrite append_nil_r.
  - cbn [map app]. rewrite run_callbacks_update.
    destruct (IH (_update_output l s)) as (s1 & -> & Hout & Hrun & Hcmd).
    exists s1. split; [done |]. rewrite Hout, Hrun, Hcmd.
    cbn [lines_text fold_right]. split; [| done].
    change (output_text (_update_output l s)) with (output_text s +:+ l).
    apply append_assoc.
Qed.

(** X3.  Whatever a process with a finite output does, the worker
    schedules one [_update_output] for each line it read from it, in the
    order of the stream: none when [Popen] raised, otherwise the non-empty
    lines at the head of the output up to the end of the stream, the first
    empty line or the first exception.  Then it schedules exactly one
    callback that ends the run: [_execution_error] with the exception when
    one was raised, [_execution_finished] otherwise.  When the main loop
    has run them the running flag is clear and exactly one dialog was
    shown. *)
Theorem run_ends_once (p : process) (now : string) (s : state) :
  (exists lines term,
     forwarded p lines term
     /\ _run_sqlmap p = map cb_update_output lines ++ [term]
     /\ is_terminal term = true)
  /\ is_running (fst (run_callbacks now (_run_sqlmap p) s)) = false
  /\ length (snd (run_callbacks now (_run_sqlmap p) s)) = 1.
Proof.
  pose proof (run_sqlmap_shape p) as Hshape. split; [exact Hshape |].
  destruct Hshape as (lines & term & _ & -> & Hterm).
  destruct (run_lines_then now lines term s) as (s1 & -> & _).
  cbn [fst snd]. by apply terminal_callback_clears.
Qed.

Lemma finished_output (now : string) (s : state) :
  output_text (fst (_execution_finished now s))
  = output_text s +:+ finished_footer now.
Proof.
  unfold finished_footer.
  change (output_text (fst (_execution_finished now s)))
    with ((((output_text s +:+ (nl +:+ rule +:+ nl))
             +:+ ("✅ SQLMap execution completed successfully" +:+ nl))
            +:+ ("⏰ Completed at: " +:+ now +:+ nl))
           +:+ (rule +:+ nl)).
  by rewrite !append_assoc.
Qed.

(** X4.  The lines of a process that is read to the end of its stream
    reach the output widget in the order in which they were printed, none
    dropped and none doubled, after what the widget held and before the
    completion footer; the one dialog is the Success dialog. *)
Theorem output_lines_in_order (lines : list string) (rc : Z) (now : string)
    (s : state) :
  Forall (fun l => truthy l = true) lines ->
  output_text
    (fst (run_callbacks now
            (_run_sqlmap {| popen_error := None; stdout := map Line lines;
                            returncode := rc |}) s))
  = output_text s +:+ lines_text lines +:+ finished_footer now
  /\ snd (run_callbacks now
            (_run_sqlmap {| popen_error := None; stdout := map Line lines;
                            returncode := rc |}) s)
     = [showinfo "Success" "🎉 SQLMap execution completed successfully!"].
Proof.
  intros Hlines. rewrite (run_sqlmap_exit_schedules_finished lines rc Hlines).
  destruct (run_lines_then now lines cb_execution_finished s)
    as (s1 & -> & Hout & _).
  cbn [fst snd run_callback]. rewrite finished_output, Hout.
  split; [apply append_assoc | reflexivity].
Qed.

Lemma output_lines_in_order_witness :
  Forall (fun l => truthy l = true) ["a" +:+ nl; "b" +:+ nl]
  /\ output_text
       (fst (run_callbacks "2024-01-01 12:00:05"
               (_run_sqlmap {| popen_error := None;
                               stdout := map Line ["a" +:+ nl; "b" +:+ nl];
                               returncode := 0 |}) running_state))
     = output_text running_state +:+ lines_text ["a" +:+ nl; "b" +:+ nl]
       +:+ finished_footer "2024-01-01 12:00:05".
Proof.
  assert (H : Forall (fun l => truthy l = true) ["a" +:+ nl; "b" +:+ nl])
    by (repeat constructor).
  split; [exact H |].
  exact (proj1 (output_lines_in_order ["a" +:+ nl; "b" +:+ nl] 0
                  "2024-01-01 12:00:05" running_state H)).
Defined.

Lemma read_loop_raises (lines : list string) (error : string)
    (rest : list readline_result) (rc : Z) :
  Forall (fun l => truthy l = true) lines ->
  read_loop (map Line lines ++ Raises error :: rest) rc
  = map cb_update_output lines ++ [cb_execution_error error].
Proof.
  induction 1 as [| l lines Hl _ IH]; cbn [map app read_loop]; [done |].
  by rewrite Hl, IH.
Qed.

(** X5.  When [Popen] raises, the error callback is the only one, whatever
    the process would have printed.  When reading raises after some lines,
    these lines are delivered, what follows the failure is not, and the
    error callback ends the run.  In both cases the one dialog shown is
    the error dialog with the text of the exception, and the running flag
    is cleared. *)
Theorem exceptions_reported (lines : list string) (error : string)
    (rest : list readline_result) (rc : Z) (now : string) (s : state) :
  Forall (fun l => truthy l = true) lines ->
  _run_sqlmap {| popen_error := Some error; stdout := map Line lines ++ rest;
                 returncode := rc |} = [cb_execution_error error]
  /\ _run_sqlmap {| popen_error := None;
                   stdout := map Line lines ++ Raises error :: rest;
                   returncode := rc |}
     = map cb_update_output lines ++ [cb_execution_error error]
  /\ snd (run_callbacks now
            (_run_sqlmap {| popen_error := None;
                            stdout := map Line lines ++ Raises error :: rest;
                            returncode := rc |}) s)
     = [error_dialog error]
  /\ is_running
       (fst (run_callbacks now
               (_run_sqlmap {| popen_error := None;
                               stdout := map Line lines ++ Raises error :: rest;
                               returncode := rc |}) s)) = false.
Proof.
  intros Hlines. split; [reflexivity |].
  unfold _run_sqlmap. cbn [popen_error stdout returncode].
  rewrite (read_loop_raises lines error rest rc Hlines).
  split; [reflexivity |].
  destruct (run_lines_then now lines (cb_execution_error error) s)
    as (s1 & -> & _).
  split; reflexivity.
Qed.

Lemma exceptions_reported_witness :
  Forall (fun l => truthy l = true) ["a" +:+ nl]
  /\ _run_sqlmap broken_pipe_process
     = map cb_update_output ["a" +:+ nl] ++ [cb_execution_error "broken pipe"]
  /\ snd (run_callbacks "2024-01-01 12:00:05" (_run_sqlmap broken_pipe_process)
            running_state)
     = [error_dialog "broken pipe"].
Proof.
  assert (H : Forall (fun l => truthy l = true) ["a" +:+ nl])
    by (repeat constructor).
  split; [exact H |].
  destruct (exceptions_reported ["a" +:+ nl] "broken pipe" [Line ("b" +:+ nl)]
              0 "2024-01-01 12:00:05" running_state H)
    as (_ & Hrun & Hdialog & _).
  split; [exact Hrun | exact Hdialog].
Defined.

End SupervisorMore.

(* ================================================================= *)
(** ** More on the requests of the user *)

Module RequestsMore.
Import Py Options Gui Compiler Supervisor Presets System Dialogs Spec Properties.
Import CompilerFacts SupervisorFacts SystemFacts.




Lemma clear_output_fields (s : state) :
  command_text (clear_output s) = EmptyString
  /\ output_text (clear_output s) = EmptyString
  /\ current_command (clear_output s) = current_command s
  /\ is_running (clear_output s) = is_running s.
Proof. repeat split; reflexivity. Qed.

(** X7.  [clear_output] empties the output and the command display and
    keeps the stored command: an execution requested next runs the command
    that is no longer displayed. *)
Theorem clear_output_keeps_command (s : state) (now : string) :
  is_running s = false ->
  truthy (current_command s) = true ->
  command_text (clear_output s) = EmptyString
  /\ output_text (clear_output s) = EmptyString
  /\ exists s',
       execute_sqlmap now (clear_output s)
       = (s', [thread_start (current_command s)])
       /\ is_running s' = true.
Proof.
  intros Hoff Hcmd.
  destruct (clear_output_fields s) as (Hct & Hot & Hcc & Hrun).
  split; [exact Hct |]. split; [exact Hot |].
  destruct (execute_sqlmap now (clear_output s)) as [s' effects] eqn:Hex.
  destruct (execute_sqlmap_inv _ _ _ _ Hex)
    as [(_ & _ & -> & Hon & _) | ([Hno | Hon] & _ & _)].
  - exists s'. by rewrite Hcc.
  - rewrite Hcc, Hcmd in Hno. discriminate.
  - rewrite Hrun, Hoff in Hon. discriminate.
Qed.

Lemma clear_output_keeps_command_witness :
  is_running (generate_command example_form) = false
  /\ truthy (current_command (generate_command example_form)) = true
  /\ command_text (clear_output (generate_command example_form)) = EmptyString
  /\ output_text (clear_output (generate_command example_form)) = EmptyString
  /\ exists s',
       execute_sqlmap "2024-01-01 12:00:00"
         (clear_output (generate_command example_form))
       = (s', [thread_start (current_command (generate_command example_form))])
       /\ is_running s' = true.
Proof.
  assert (H1 : is_running (generate_command example_form) = false)
    by reflexivity.
  assert (H2 : truthy (current_command (generate_command example_form)) = true)
    by reflexivity.
  split; [exact H1 |]. split; [exact H2 |].
  exact (clear_output_keeps_command (generate_command example_form)
           "2024-01-01 12:00:00" H1 H2).
Defined.

Lemma stop_execution_clears (s : state) :
  is_running (fst (stop_execution s)) = false.
Proof. unfold stop_execution. by destruct (is_running s) eqn:Hrun. Qed.

Lemma stop_execution_idle (s : state) :
  is_running s = false -> stop_execution s = (s, []).
Proof. intros H. unfold stop_execution. by rewrite H. Qed.

(** After a stop request the running flag is clear, whatever it was;
    a stop request made then shows no dialog and changes no field, so
    repeated stop requests show the dialog once. *)
Theorem stop_execution_twice (s : state) :
  is_running (fst (stop_execution s)) = false
  /\ stop_execution (fst (stop_execution s)) = (fst (stop_execution s), []).
Proof.
  split; [apply stop_execution_clears |].
  apply stop_execution_idle, stop_execution_clears.
Qed.

Lemma quick_scan_form_values (s : state) :
  str_get (vars (quick_scan_form s)) url_var = str_get (vars s) url_var
  /\ str_get (vars (quick_scan_form s)) risk_var = "2"
  /\ str_get (vars (quick_scan_form s)) level_var = "3"
  /\ bool_get (vars (quick_scan_form s)) batch_var = true
  /\ bool_get (vars (quick_scan_form s)) verbose_var = true
  /\ bool_get (vars (quick_scan_form s)) random_agent_var = true.
Proof. repeat split; reflexivity. Qed.

(** The tokens that the settings of a quick scan give. *)
Lemma quick_scan_tokens (vs : variables) (url : string) :
  str_get vs url_var = url ->
  truthy url = true ->
  str_get vs risk_var = "2" ->
  str_get vs level_var = "3" ->
  bool_get vs batch_var = true ->
  bool_get vs verbose_var = true ->
  bool_get vs random_agent_var = true ->
  Forall (fun token => In token (command_parts vs))
    ["-u " +:+ dq +:+ url +:+ dq; "--risk=2"; "--level=3"; "--batch"; "-v";
     "--random-agent"].
Proof.
  intros Hurl Htruthy Hrisk Hlevel Hbatch Hverbose Hagent.
  unfold command_parts.
  rewrite Hurl, Hrisk, Hlevel, Hbatch, Hverbose, Hagent.
  repeat constructor;
    pick_part ltac:(first [ apply in_append_if_true; exact Htruthy
                          | left; reflexivity ]).
Qed.

Lemma quick_scan_form_tokens (s : state) :
  truthy (str_get (vars s) url_var) = true ->
  Forall (fun token => In token (command_parts (vars (quick_scan_form s))))
    ["-u " +:+ dq +:+ str_get (vars s) url_var +:+ dq; "--risk=2"; "--level=3";
     "--batch"; "-v"; "--random-agent"].
Proof.
  intros Hurl.
  destruct (quick_scan_form_values s) as (H1 & H2 & H3 & H4 & H5 & H6).
  by apply quick_scan_tokens.
Qed.

Lemma current_command_quick_scan_form (s : state) :
  current_command (quick_scan_form s) = compile (vars (quick_scan_form s)).
Proof. reflexivity. Qed.

(** X8.  [quick_scan] on a form with a target and the running flag clear
    starts a thread and sets the flag; the command it compiled and stored
    holds the target and [--risk=2], [--level=3], [--batch], [-v] and
    [--random-agent], whatever risk and level the form held. *)
Theorem quick_scan_starts (s : state) (now : string) :
  truthy (str_get (vars s) url_var) = true ->
  is_running s = false ->
  exists s' parts,
    quick_scan now s = (s', [thread_start (join " " parts)])
    /\ is_running s' = true
    /\ current_command s' = join " " parts
    /\ Forall (fun token => In token parts)
         ["-u " +:+ dq +:+ str_get (vars s) url_var +:+ dq; "--risk=2";
          "--level=3"; "--batch"; "-v"; "--random-agent"].
Proof.
  intros Hurl Hoff. unfold quick_scan. rewrite Hurl. cbn [negb].
  fold (quick_scan_form s).
  destruct (execute_sqlmap now (quick_scan_form s)) as [s1 effects] eqn:Hex.
  destruct (execute_sqlmap_inv _ _ _ _ Hex)
    as [(_ & _ & -> & Hon & Hcmd) | ([Hno | Hon] & _ & _)].
  - eexists _, (command_parts (vars (quick_scan_form s))).
    rewrite current_command_quick_scan_form. split; [reflexivity |].
    rewrite is_running_status_bar, current_command_status_bar, Hcmd.
    split; [exact Hon |]. split; [apply current_command_quick_scan_form |].
    by apply quick_scan_form_tokens.
  - rewrite quick_scan_form_truthy in Hno. discriminate.
  - rewrite is_running_quick_scan_form, Hoff in Hon. discriminate.
Qed.

Lemma quick_scan_starts_witness :
  truthy (str_get (vars (with_vars (str_set url_var "http://t/x?id=1")
                           example_form)) url_var) = true
  /\ is_running (with_vars (str_set url_var "http://t/x?id=1") example_form)
     = false
  /\ exists s' parts,
       quick_scan "2024-01-01 12:00:00"
         (with_vars (str_set url_var "http://t/x?id=1") example_form)
       = (s', [thread_start (join " " parts)])
       /\ is_running s' = true
       /\ current_command s' = join " " parts
       /\ Forall (fun token => In token parts)
            ["-u " +:+ dq
               +:+ str_get (vars (with_vars (str_set url_var "http://t/x?id=1")
                                    example_form)) url_var +:+ dq;
             "--risk=2"; "--level=3"; "--batch"; "-v"; "--random-agent"].
Proof.
  split; [reflexivity |]. split; [reflexivity |].
  apply (quick_scan_starts
           (with_vars (str_set url_var "http://t/x?id=1") example_form)
           "2024-01-01 12:00:00"); reflexivity.
Defined.

(** X9.  [quick_scan] on a form with a target while the running flag is
    set shows the warning and starts nothing, and the flag and the output
    stay as they are; but risk and level on the form are overwritten, the
    stored command is compiled again from the edited form, and the status
    bar reads that a quick scan was initiated. *)
Theorem quick_scan_refused_edits_form (s : state) (now : string) :
  truthy (str_get (vars s) url_var) = true ->
  is_running s = true ->
  exists s',
    quick_scan now s = (s', [showwarning "Warning" "SQLMap is already running"])
    /\ is_running s' = true
    /\ output_text s' = output_text s
    /\ str_get (vars s') risk_var = "2"
    /\ str_get (vars s') level_var = "3"
    /\ str_get (vars s') status_var = "🟡 Quick scan initiated..."
    /\ current_command s' = compile (vars (quick_scan_form s))
    /\ In "--risk=2" (command_parts (vars (quick_scan_form s))).
Proof.
  intros Hurl Hrun. rewrite (quick_scan_while_running now s Hurl Hrun).
  eexists. split; [reflexivity |].
  rewrite is_running_status_bar, current_command_status_bar.
  rewrite is_running_quick_scan_form.
  split; [exact Hrun |]. split; [reflexivity |]. split; [reflexivity |].
  split; [reflexivity |]. split; [reflexivity |].
  split; [apply current_command_quick_scan_form |].
  pose proof (quick_scan_form_tokens s Hurl) as Htokens.
  inversion Htokens as [| ? ? _ Hrest]. by inversion Hrest.
Qed.

Lemma quick_scan_refused_edits_form_witness :
  truthy (str_get (vars running_state) url_var) = true
  /\ is_running running_state = true
  /\ exists s',
       quick_scan "2024-01-01 12:00:01" running_state
       = (s', [showwarning "Warning" "SQLMap is already running"])
       /\ is_running s' = true
       /\ output_text s' = output_text running_state
       /\ str_get (vars s') risk_var = "2"
       /\ str_get (vars s') level_var = "3"
       /\ str_get (vars s') status_var = "🟡 Quick scan initiated..."
       /\ current_command s' = compile (vars (quick_scan_form running_state))
       /\ In "--risk=2" (command_parts (vars (quick_scan_form running_state))).
Proof.
  split; [reflexivity |]. split; [reflexivity |].
  apply (quick_scan_refused_edits_form running_state "2024-01-01 12:00:01");
    reflexivity.
Defined.

(** X10.  A cancelled file dialog leaves the form as it is.  A chosen
    directory, or a chosen word list, is in the next compiled command,
    between double quotes after its flag, and no other variable of the
    form is touched. *)
Theorem browse_sets_path (path : string) (s : state) :
  (path = EmptyString ->
     browse_output_dir path s = s /\ browse_wordlist path s = s)
  /\ (path <> EmptyString ->
        In ("--output-dir=" +:+ dq +:+ path +:+ dq)
           (command_parts (vars (browse_output_dir path s)))
        /\ In ("--wordlist=" +:+ dq +:+ path +:+ dq)
             (command_parts (vars (browse_wordlist path s)))
        /\ (forall x, x <> SV output_dir_var ->
              get (vars (browse_output_dir path s)) x = get (vars s) x)
        /\ (forall x, x <> SV wordlist_var ->
              get (vars (browse_wordlist path s)) x = get (vars s) x)).
Proof.
  split.
  - intros ->. by split.
  - intros Hne. pose proof (truthy_of_ne path Hne) as Htruthy.
    unfold browse_output_dir, browse_wordlist. rewrite Htruthy.
    split; [| split; [| split]].
    + pick_part ltac:(apply in_append_if_true; exact Htruthy).
    + pick_part ltac:(apply in_append_if_true; exact Htruthy).
    + intros [[] | []] Hx; try reflexivity. by destruct Hx.
    + intros [[] | []] Hx; try reflexivity. by destruct Hx.
Qed.

End RequestsMore.

(* ================================================================= *)
(** ** More on the preset store *)

Module PresetsMore.
Import Py Options Gui Compiler Supervisor Presets System Spec Properties.
Import OptionsFacts SystemFacts PresetsFacts.

(** X11.  Applying what [save_preset] collects from one form to another
    form ends normally; every variable that was non-empty or true on the
    saved form takes its saved value, and every variable that was empty or
    false on the saved form keeps the value of the other form: loading
    never empties a text and never switches a boolean off. *)
Theorem saved_settings_reapplied (saved current : variables) :
  exists vs,
    apply_preset (collect saved) current = Some vs
    /\ forall x, get vs x = if value_truthy (get saved x)
                           then get saved x
                           else get current x.
Proof.
  destruct (apply_preset_get (collect saved) current (collect_well_kinded saved))
    as (vs & Happly & Hget).
  exists vs. split; [exact Happly |]. intros x.
  rewrite Hget, collect_lookup. by destruct (value_truthy (get saved x)).
Qed.

Lemma gear_prefix_ord_gt_127 (name : string) :
  any_ord_gt_127 ("⚙️ " +:+ name) = true.
Proof. reflexivity. Qed.

(** X12.  The key under which [save_preset] files a preset always has a
    character with a code point above 127, so the key is a fixed point:
    saving under a key that was produced before gives that key again, and
    a plain name and the same name with the gear prefix get the same
    key. *)
Theorem save_preset_name_idempotent (name : string) :
  any_ord_gt_127 (save_preset_name name) = true
  /\ save_preset_name (save_preset_name name) = save_preset_name name
  /\ (any_ord_gt_127 name = false ->
      save_preset_name ("⚙️ " +:+ name) = save_preset_name name).
Proof.
  assert (H : any_ord_gt_127 (save_preset_name name) = true).
  { unfold save_preset_name. destruct (any_ord_gt_127 name) eqn:Hname; [done |].
    apply gear_prefix_ord_gt_127. }
  split; [exact H |]. split.
  - unfold save_preset_name at 1. by rewrite H.
  - intros Hname. unfold save_preset_name.
    by rewrite gear_prefix_ord_gt_127, Hname.
Qed.

(** X13.  [load_preset] changes the variables of the form and nothing
    else: the stored command, the command display, the output, the running
    flag, the store and the listbox are as they were, so the command on
    display describes the form as it was before the preset until
    [generate_command] is called. *)
Theorem load_preset_frame (selection : option nat) (s s' : state)
    (effects : list effect) :
  load_preset selection s = Ok s' effects ->
  current_command s' = current_command s
  /\ command_text s' = command_text s
  /\ output_text s' = output_text s
  /\ is_running s' = is_running s
  /\ presets s' = presets s
  /\ preset_listbox s' = preset_listbox s.
Proof.
  unfold load_preset. destruct selection as [index |].
  - cbv zeta. destruct (presets s !! listbox_get s index) as [p |];
      [| discriminate].
    destruct (apply_preset p (vars s)) as [vs |]; [| discriminate].
    intros [= <- _]. by repeat split.
  - intros [= <- _]. by repeat split.
Qed.

Lemma load_preset_frame_witness :
  exists s' effects,
    load_preset (Some 0) initial_state = Ok s' effects
    /\ current_command s' = current_command initial_state
    /\ command_text s' = command_text initial_state
    /\ output_text s' = output_text initial_state
    /\ is_running s' = is_running initial_state
    /\ presets s' = presets initial_state
    /\ preset_listbox s' = preset_listbox initial_state.
Proof.
  assert (Hp : presets initial_state !! listbox_get initial_state 0
               = Some quick_scan_preset) by reflexivity.
  destruct (apply_preset_get quick_scan_preset (vars initial_state)
              quick_scan_preset_well_kinded) as (vs & Happly & _).
  assert (Hload : exists s' effects,
             load_preset (Some 0) initial_state = Ok s' effects).
  { unfold load_preset. cbv zeta. rewrite Hp, Happly. by eexists _, _. }
  destruct Hload as (s' & effects & Hload).
  exists s', effects. split; [exact Hload |].
  exact (load_preset_frame (Some 0) initial_state s' effects Hload).
Defined.

End PresetsMore.

(* ================================================================= *)
(** ** More on reachable states *)

Module SystemMore.
Import Py Options Gui Compiler Supervisor Presets System Spec Properties.
Import OptionsFacts CompilerFacts SystemFacts PresetsFacts.

(** *** The store and the listbox *)

Lemma load_presets_in_sync (s : state) (a b : string) :
  presets_in_sync (set_progress a (set_status b (load_presets s))).
Proof. split; reflexivity. Qed.

Lemma execute_sqlmap_listbox (now : string) (s s' : state)
    (effects : list effect) :
  execute_sqlmap now s = (s', effects) -> preset_listbox s' = preset_listbox s.
Proof.
  intros Hex. unfold execute_sqlmap in Hex.
  destruct (negb (truthy (current_command s))); [by injection Hex as <- _ |].
  destruct (is_running s); by injection Hex as <- _.
Qed.

Lemma listbox_status_bar (a b : string) (s : state) :
  preset_listbox (set_progress a (set_status b s)) = preset_listbox s.
Proof. reflexivity. Qed.

Lemma listbox_quick_scan_form (s : state) :
  preset_listbox (quick_scan_form s) = preset_listbox s.
Proof. reflexivity. Qed.

Lemma quick_scan_listbox (now : string) (s s' : state)
    (effects : list effect) :
  quick_scan now s = (s', effects) -> preset_listbox s' = preset_listbox s.
Proof.
  unfold quick_scan.
  destruct (negb (truthy (str_get (vars s) url_var))); [by intros [= <- _] |].
  fold (quick_scan_form s).
  destruct (execute_sqlmap now (quick_scan_form s)) as [s1 effects1] eqn:Hex.
  intros [= <- _]. rewrite listbox_status_bar.
  rewrite (execute_sqlmap_listbox _ _ _ _ Hex).
  apply listbox_quick_scan_form.
Qed.

Lemma load_preset_listbox (sel : option nat) (s : state) :
  preset_listbox (after_outcome (load_preset sel s) s) = preset_listbox s.
Proof.
  unfold load_preset. destruct sel as [index |]; [| done]. cbv zeta.
  destruct (presets s !! listbox_get s index) as [p |]; [| done].
  by destruct (apply_preset p (vars s)).
Qed.

Lemma worker_listbox (i : nat) (now : string) (sys : system) :
  preset_listbox (gui (step (Worker i now) sys)) = preset_listbox (gui sys).
Proof.
  cbn [step]. destruct (workers sys !! i) as [w |]; [| done].
  destruct (worker_step w) as [w' [[line | | error] |]]; done.
Qed.

Lemma step_in_sync (e : event) (sys : system) :
  presets_in_sync (gui sys) -> presets_in_sync (gui (step e sys)).
Proof.
  intros [Hp Hl]. unfold presets_in_sync.
  destruct (is_edit e) eqn:Hedit.
  { destruct (step_edit e sys Hedit) as [(f & g & h & Hf) _]. by rewrite Hf. }
  destruct e as [x text | x | directory | filename | text | text
                 | | now p | now p | | | filename failure
                 | sel | answer | sel confirm | i now];
    try discriminate Hedit.
  - by split.
  - cbn [step].
    destruct (execute_sqlmap now (gui sys)) as [s' effects] eqn:Hex.
    cbn [gui]. by rewrite (execute_sqlmap_presets _ _ _ _ Hex),
      (execute_sqlmap_listbox _ _ _ _ Hex).
  - cbn [step].
    destruct (quick_scan now (gui sys)) as [s' effects] eqn:Hqs.
    cbn [gui]. by rewrite (quick_scan_presets _ _ _ _ Hqs),
      (quick_scan_listbox _ _ _ _ Hqs).
  - cbn [step gui]. unfold stop_execution.
    by destruct (is_running (gui sys)).
  - by split.
  - by split.
  - cbn [step gui]. by rewrite load_preset_presets, load_preset_listbox.
  - cbn [step gui]. unfold save_preset.
    destruct (save_preset_assign answer (gui sys)) as [[k s1] |]; [| done].
    apply load_presets_in_sync.
  - cbn [step gui]. unfold delete_preset.
    destruct sel as [index |]; [| done]. destruct confirm; [| done]. cbv zeta.
    destruct (delete_preset_del (listbox_get (gui sys) index) (gui sys));
      [| done].
    apply load_presets_in_sync.
  - by rewrite worker_presets, worker_listbox.
Qed.

Lemma reachable_in_sync (sys : system) :
  reachable sys -> presets_in_sync (gui sys).
Proof.
  intros [trace ->]. induction trace as [| e trace IH] using rev_ind.
  - split; reflexivity.
  - rewrite run_snoc. by apply step_in_sync.
Qed.

(** Every row of the listbox names a well-kinded preset of the store. *)
Lemma in_sync_row (s : state) (index : nat) :
  presets_in_sync s ->
  index < 6 ->
  exists p, presets s !! listbox_get s index = Some p /\ well_kinded p.
Proof.
  intros [Hp Hl] Hindex. unfold listbox_get. rewrite Hp, Hl.
  assert (Hrow : exists p,
            list_to_map (M := gmap string preset) builtin_presets
              !! default EmptyString (builtin_names !! index) = Some p).
  { do 6 (destruct index as [| index]; [by eexists |]). lia. }
  destruct Hrow as [p Hrow]. exists p. split; [exact Hrow |].
  apply elem_of_list_to_map_2 in Hrow. apply list_elem_of_In in Hrow.
  by apply (builtin_presets_well_kinded _ _ Hrow).
Qed.

(** X14.  In every reachable state the store is the dictionary that
    [load_presets] builds and the listbox shows its six names in source
    order.  So [load_preset] and [delete_preset] end normally on every row
    (no [KeyError], no value of the wrong kind), and after a confirmed
    [delete_preset] the store and the listbox are the same again. *)
Theorem reachable_store_in_sync (sys : system) (index : nat) :
  reachable sys ->
  index < 6 ->
  presets_in_sync (gui sys)
  /\ (exists s' effects, load_preset (Some index) (gui sys) = Ok s' effects)
  /\ (exists s' effects,
        delete_preset (Some index) true (gui sys) = Ok s' effects
        /\ presets_in_sync s').
Proof.
  intros Hreach Hindex. pose proof (reachable_in_sync sys Hreach) as Hsync.
  split; [exact Hsync |].
  destruct (in_sync_row (gui sys) index Hsync Hindex) as (p & Hp & Hwk).
  split.
  - unfold load_preset. cbv zeta. rewrite Hp.
    destruct (apply_preset_get p (vars (gui sys)) Hwk) as (vs & -> & _).
    by eexists _, _.
  - unfold delete_preset, delete_preset_del. cbv zeta. rewrite Hp.
    eexists _, _. split; [reflexivity |]. apply load_presets_in_sync.
Qed.

Lemma reachable_store_in_sync_witness :
  reachable scanning_system
  /\ 3 < 6
  /\ presets_in_sync (gui scanning_system)
  /\ (exists s' effects,
        load_preset (Some 3) (gui scanning_system) = Ok s' effects)
  /\ (exists s' effects,
        delete_preset (Some 3) true (gui scanning_system) = Ok s' effects
        /\ presets_in_sync s').
Proof.
  assert (Hreach : reachable scanning_system) by (exists scan_trace; reflexivity).
  assert (Hindex : 3 < 6) by lia.
  split; [exact Hreach |]. split; [exact Hindex |].
  exact (reachable_store_in_sync scanning_system 3 Hreach Hindex).
Defined.

(** *** The stored command *)











(** *** Sessions at a time *)

Lemma run_exclusive (trace : list event) :
  ~ In Stop trace -> exclusive (run trace initial_system).
Proof.
  intros Hstop. induction trace as [| e trace IH] using rev_ind.
  - apply initial_exclusive.
  - rewrite run_snoc. apply step_exclusive.
    + intros ->. apply Hstop. apply in_or_app. right. by left.
    + apply IH. intros Hin. apply Hstop. apply in_or_app. by left.
Qed.

(** X16.  As long as no stop request is made, at most one worker thread
    is alive and at most one external process is being read, and no thread
    is alive while the running flag is clear: without stop requests the
    guard of [execute_sqlmap] keeps executions apart. *)
Theorem one_session_without_stop (trace : list event) :
  ~ In Stop trace ->
  live_workers (run trace initial_system) <= 1
  /\ active_sessions (run trace initial_system) <= 1
  /\ (is_running (gui (run trace initial_system)) = false ->
      live_workers (run trace initial_system) = 0).
Proof.
  intros Hstop. pose proof (run_exclusive trace Hstop) as H.
  pose proof (active_le_live (run trace initial_system)) as Hle.
  unfold exclusive in H.
  destruct (is_running (gui (run trace initial_system)));
    repeat split; try lia; discriminate.
Qed.

Lemma one_session_without_stop_witness :
  ~ In Stop two_runs_trace
  /\ live_workers (run two_runs_trace initial_system) <= 1
  /\ active_sessions (run two_runs_trace initial_system) <= 1
  /\ (is_running (gui (run two_runs_trace initial_system)) = false ->
      live_workers (run two_runs_trace initial_system) = 0).
Proof.
  assert (H : ~ In Stop two_runs_trace).
  { unfold two_runs_trace. simpl. intros Hin.
    repeat (destruct Hin as [Hin | Hin]; [discriminate Hin |]). exact Hin. }
  split; [exact H |].
  exact (one_session_without_stop two_runs_trace H).
Defined.

(** X17.  From every reachable state whose running flag is set, a stop
    request followed by an execution request starts one more thread: the
    threads that were there are as they were, a process that was being
    read is still being read, and the flag is set again. *)
Theorem stop_then_execute_adds_thread (sys : system) (now : string)
    (p : process) :
  reachable sys ->
  is_running (gui sys) = true ->
  workers (step (Execute now p) (step Stop sys)) = workers sys ++ [Spawned p]
  /\ active_sessions (step (Execute now p) (step Stop sys)) = active_sessions sys
  /\ live_workers (step (Execute now p) (step Stop sys)) = live_workers sys + 1
  /\ is_running (gui (step (Execute now p) (step Stop sys))) = true.
Proof.
  intros Hreach Hrun.
  pose proof (stop_reopens_execution sys now p Hreach Hrun) as Hw.
  split; [exact Hw |].
  unfold active_sessions, live_workers. rewrite Hw.
  rewrite List.filter_app, length_app, live_workers_app.
  cbn [List.filter is_reading is_live length].
  split; [lia |]. split; [reflexivity |].
  pose proof (reachable_command_ready sys Hreach Hrun) as Hcmd.
  destruct (stop_execution_running _ Hrun) as [Hoff Hc].
  cbn [step gui].
  destruct (execute_sqlmap now (fst (stop_execution (gui sys))))
    as [s' effects] eqn:Hex.
  cbn [gui].
  destruct (execute_sqlmap_inv _ _ _ _ Hex)
    as [(_ & _ & _ & Hon & _) | ([Hno | Hon] & _ & _)].
  - exact Hon.
  - rewrite Hc, Hcmd in Hno. discriminate.
  - rewrite Hoff in Hon. discriminate.
Qed.

Lemma stop_then_execute_adds_thread_witness :
  reachable scanning_system
  /\ is_running (gui scanning_system) = true
  /\ workers (step (Execute "2024-01-01 12:00:03" failing_process)
               (step Stop scanning_system))
     = workers scanning_system ++ [Spawned failing_process]
  /\ active_sessions (step (Execute "2024-01-01 12:00:03" failing_process)
                        (step Stop scanning_system))
     = active_sessions scanning_system
  /\ live_workers (step (Execute "2024-01-01 12:00:03" failing_process)
                     (step Stop scanning_system))
     = live_workers scanning_system + 1
  /\ is_running (gui (step (Execute "2024-01-01 12:00:03" failing_process)
                         (step Stop scanning_system))) = true.
Proof.
  assert (Hreach : reachable scanning_system) by (exists scan_trace; reflexivity).
  assert (Hrun : is_running (gui scanning_system) = true)
    by (vm_compute; reflexivity).
  split; [exact Hreach |]. split; [exact Hrun |].
  exact (stop_then_execute_adds_thread scanning_system "2024-01-01 12:00:03"
           failing_process Hreach Hrun).
Defined.

End SystemMore.
